(** * Certifii: field geometry, text layout and batch export

    A shallow embedding of the certificate generator's core: the
    [CertificateGenerator] component (preview, drag editing, batch export)
    and the [FieldDesigner] component (design-time field editing).

    Conventions of the embedding.
    - A JavaScript [number] is an exact rational ([Q]).  Rounding of
      binary64 arithmetic, [NaN] and the infinities are not represented;
      a division is only meaningful where the divisor is non-zero, and the
      statements that depend on a division say so.
    - A JavaScript string is a [string] of 8-bit characters.
    - A data row (a plain object used as a dictionary) is a finite map
      from column names to cell values.
    - The browser's text measurement ([ctx.measureText(text).width] under
      the font [`${fontSize}px ${fontFamily}`]) is a parameter.
    - React state is passed explicitly; a handler maps a state to the
      next state. *)

From Stdlib Require Import Ascii QArith Qround Qminmax Lqa.
From stdpp Require Import gmap strings list pretty.

Local Open Scope Q_scope.

(** ** Data model (types.ts) *)

Inductive Align := AlignLeft | AlignCenter | AlignRight.

Module TextField.
Record t := mk {
  id : string;
  label : string;
  x : Q;
  y : Q;
  width : Q;
  height : Q;
  fontSize : Q;
  fontFamily : string;
  color : string;
  align : Align;
  autoWidth : bool
}.
End TextField.

(** [Partial<TextField>]: every key is either absent or carries a value. *)
Module Patch.
Record t := mk {
  id : option string;
  label : option string;
  x : option Q;
  y : option Q;
  width : option Q;
  height : option Q;
  fontSize : option Q;
  fontFamily : option string;
  color : option string;
  align : option Align;
  autoWidth : option bool
}.

Definition empty : t :=
  mk None None None None None None None None None None None.
End Patch.

Record Template := {
  tpl_url : string;
  tpl_width : Q;
  tpl_height : Q
}.

Abbreviation CertificateData := (gmap string string).

(** The object spread [{ ...field, ...updates }]. *)
Definition spread (field : TextField.t) (updates : Patch.t) : TextField.t :=
  {| TextField.id := default (TextField.id field) (Patch.id updates);
     TextField.label := default (TextField.label field) (Patch.label updates);
     TextField.x := default (TextField.x field) (Patch.x updates);
     TextField.y := default (TextField.y field) (Patch.y updates);
     TextField.width := default (TextField.width field) (Patch.width updates);
     TextField.height := default (TextField.height field) (Patch.height updates);
     TextField.fontSize := default (TextField.fontSize field) (Patch.fontSize updates);
     TextField.fontFamily := default (TextField.fontFamily field) (Patch.fontFamily updates);
     TextField.color := default (TextField.color field) (Patch.color updates);
     TextField.align := default (TextField.align field) (Patch.align updates);
     TextField.autoWidth := default (TextField.autoWidth field) (Patch.autoWidth updates) |}.

(** The assignment [updatedField.width = w]. *)
Definition setWidth (field : TextField.t) (w : Q) : TextField.t :=
  {| TextField.id := TextField.id field;
     TextField.label := TextField.label field;
     TextField.x := TextField.x field;
     TextField.y := TextField.y field;
     TextField.width := w;
     TextField.height := TextField.height field;
     TextField.fontSize := TextField.fontSize field;
     TextField.fontFamily := TextField.fontFamily field;
     TextField.color := TextField.color field;
     TextField.align := TextField.align field;
     TextField.autoWidth := TextField.autoWidth field |}.

(** ** JavaScript truthiness and small string helpers *)

(** A string is truthy unless it is empty. *)
Definition truthyString (s : string) : bool := negb (String.eqb s "").

(** A (non-NaN) number is truthy unless it is zero. *)
Definition truthyNumber (q : Q) : bool := negb (Qeq_bool q 0).

(** Truthiness of an optional key of a patch ([undefined] is falsy). *)
Definition truthyKey {A} (truthy : A -> bool) (o : option A) : bool :=
  match o with
  | Some a => truthy a
  | None => false
  end.

(** [row[key] || ''] *)
Definition cell (row : CertificateData) (key : string) : string :=
  match row !! key with
  | Some v => if truthyString v then v else ""
  | None => ""
  end.

Definition inRange (lo hi : N) (c : ascii) : bool :=
  (lo <=? N_of_ascii c)%N && (N_of_ascii c <=? hi)%N.

(** [String.prototype.toLowerCase] on the ASCII letters. *)
Definition lowerChar (c : ascii) : ascii :=
  if inRange 65 90 c then ascii_of_N (N_of_ascii c + 32) else c.

Fixpoint toLowerCase (s : string) : string :=
  match s with
  | EmptyString => EmptyString
  | String c s' => String (lowerChar c) (toLowerCase s')
  end.

(** [s.includes(needle)] *)
Fixpoint includes (s needle : string) : bool :=
  if String.prefix needle s then true
  else match s with
       | EmptyString => false
       | String _ s' => includes s' needle
       end.

(** A character outside the class [[a-zA-Z0-9-_]] is replaced. *)
Definition safeChar (c : ascii) : bool :=
  inRange 97 122 c || inRange 65 90 c || inRange 48 57 c
  || Ascii.eqb c "-" || Ascii.eqb c "_".

(** [fileName.replace(/[^a-zA-Z0-9-_]/g, '_')] *)
Fixpoint replaceUnsafe (s : string) : string :=
  match s with
  | EmptyString => EmptyString
  | String c s' => String (if safeChar c then c else "_"%char) (replaceUnsafe s')
  end.

(** ** Text metrics

    [calculateTextWidth] has the same body in both components. *)

Definition Measure := Q -> string -> string -> Q.

Definition calculateTextWidth (measureText : Measure)
    (text : string) (fontSize : Q) (fontFamily : string) : Q :=
  inject_Z (Qceiling (measureText fontSize fontFamily text)) + 20.

(** ** Canvas, display geometry and pointer events *)

Inductive CanvasOp :=
  | ClearRect (rx ry rw rh : Q)
  | DrawImage (src : string) (dx dy dw dh : Q)
  | FillText (fontSize : Q) (fontFamily : string) (fillStyle : string)
      (textAlign : Align) (text : string) (ax ay : Q).

(** A raster surface: its pixel size and what was drawn on it, in order.
    The PNG blob of a canvas is identified with the surface it encodes. *)
Record Surface := {
  srf_width : Q;
  srf_height : Q;
  srf_ops : list CanvasOp
}.

Abbreviation Blob := Surface.

(** [getBoundingClientRect()] *)
Record DOMRect := {
  rect_left : Q;
  rect_top : Q;
  rect_width : Q;
  rect_height : Q
}.

Record MouseEvent := {
  clientX : Q;
  clientY : Q
}.

(** The inline style of one overlay hit-box. *)
Record BoxStyle := {
  box_left : Q;
  box_top : Q;
  box_width : Q;
  box_height : Q
}.

(** The [fillText] calls of a drawing, in order. *)
Definition isFillText (op : CanvasOp) : bool :=
  match op with
  | FillText _ _ _ _ _ _ _ => true
  | _ => false
  end.

Definition textOps (ops : list CanvasOp) : list CanvasOp :=
  List.filter isFillText ops.

(** ** The archive (JSZip)

    The archive keeps its entries by name in insertion order, and
    [zip.file(name, blob)] on a name that is already there replaces the
    content of that entry. *)

Abbreviation Zip := (list (string * Blob)).

Fixpoint zipFile (name : string) (blob : Blob) (zip : Zip) : Zip :=
  match zip with
  | [] => [(name, blob)]
  | (n, b) :: rest =>
      if String.eqb n name then (n, blob) :: rest
      else (n, b) :: zipFile name blob rest
  end.

(** ** CertificateGenerator (preview, drag editing, export) *)

Module Generator.

Record Canvas := {
  cv_width : Q;
  cv_height : Q;
  cv_rect : DOMRect
}.

(** [containerRef.current] is only tested for presence. *)
Record Refs := {
  containerRef : bool;
  canvasRef : option Canvas
}.

Record State := {
  editableFields : list TextField.t;
  selectedField : option string;
  isDragging : bool;
  dragOffset : Q * Q;
  isEditMode : bool
}.

(** What is observable of an export run. *)
Record ExportState := {
  isGenerating : bool;
  generatedCount : nat;
  zip : Zip;
  saved : option Zip
}.

(** What [renderPreview] leaves behind. *)
Inductive PreviewResult :=
  | NoCanvas
  | Blank (w h : Q)
  | Painted (s : Surface)
  | Threw (s : Surface).

Section Component.
Variable measureText : Measure.
Variable template : Template.
Variable data : list CertificateData.
Variable previewIndex : nat.

Definition getEffectiveWidth (field : TextField.t)
    (certificateData : option CertificateData) : Q :=
  match certificateData with
  | Some row =>
      if TextField.autoWidth field then
        let text := cell row (TextField.label field) in
        if truthyString text then
          calculateTextWidth measureText text
            (TextField.fontSize field) (TextField.fontFamily field)
        else TextField.width field
      else TextField.width field
  | None => TextField.width field
  end.

(** The body of the [map] callback of [updateField] on the field that
    has the given id. *)
Definition updateOne (field : TextField.t) (updates : Patch.t) : TextField.t :=
  let updatedField := spread field updates in
  let updatedField :=
    match Patch.autoWidth updates, data !! previewIndex with
    | Some true, Some row =>
        let text := cell row (TextField.label updatedField) in
        if truthyString text then
          setWidth updatedField
            (calculateTextWidth measureText text
               (TextField.fontSize updatedField)
               (TextField.fontFamily updatedField))
        else updatedField
    | _, _ => updatedField
    end in
  if TextField.autoWidth updatedField
     && (truthyKey truthyNumber (Patch.fontSize updates)
         || truthyKey truthyString (Patch.fontFamily updates)
         || truthyKey truthyString (Patch.label updates))
  then
    match data !! previewIndex with
    | Some row =>
        let text := cell row (TextField.label updatedField) in
        if truthyString text then
          setWidth updatedField
            (calculateTextWidth measureText text
               (TextField.fontSize updatedField)
               (TextField.fontFamily updatedField))
        else updatedField
    | None => updatedField
    end
  else updatedField.

Definition updateField (id : string) (updates : Patch.t)
    (prev : list TextField.t) : list TextField.t :=
  map (fun field =>
         if String.eqb (TextField.id field) id
         then updateOne field updates
         else field) prev.

(** The pointer in canvas pixels, as both mouse handlers compute it. *)
Definition relativePos (canvas : Canvas) (e : MouseEvent) : Q * Q :=
  let canvasRect := cv_rect canvas in
  let scaleX := cv_width canvas / rect_width canvasRect in
  let scaleY := cv_height canvas / rect_height canvasRect in
  ((clientX e - rect_left canvasRect) * scaleX,
   (clientY e - rect_top canvasRect) * scaleY).

Definition handleMouseDown (refs : Refs) (e : MouseEvent) (fieldId : string)
    (st : State) : State :=
  if negb (isEditMode st) then st
  else
    let offset :=
      match List.find (fun f => String.eqb (TextField.id f) fieldId)
              (editableFields st), containerRef refs, canvasRef refs with
      | Some field, true, Some canvas =>
          let '(relativeX, relativeY) := relativePos canvas e in
          (relativeX - TextField.x field, relativeY - TextField.y field)
      | _, _, _ => dragOffset st
      end in
    {| editableFields := editableFields st;
       selectedField := Some fieldId;
       isDragging := true;
       dragOffset := offset;
       isEditMode := isEditMode st |}.

Definition handleMouseMove (refs : Refs) (e : MouseEvent) (st : State) : State :=
  if negb (isDragging st)
     || negb (truthyKey truthyString (selectedField st))
     || negb (containerRef refs)
  then st
  else
    match selectedField st, canvasRef refs with
    | Some selected, Some canvas =>
        let '(relativeX, relativeY) := relativePos canvas e in
        let x := Qmax 0 (Qmin (tpl_width template - 50)
                           (relativeX - fst (dragOffset st))) in
        let y := Qmax 0 (Qmin (tpl_height template - 20)
                           (relativeY - snd (dragOffset st))) in
        let updates :=
          Patch.mk None None (Some x) (Some y) None None None None None None None in
        {| editableFields := updateField selected updates (editableFields st);
           selectedField := selectedField st;
           isDragging := isDragging st;
           dragOffset := dragOffset st;
           isEditMode := isEditMode st |}
    | _, _ => st
    end.

Definition handleMouseUp (st : State) : State :=
  {| editableFields := editableFields st;
     selectedField := selectedField st;
     isDragging := false;
     dragOffset := dragOffset st;
     isEditMode := isEditMode st |}.

(** The [forEach] callback of [generateCertificateImage]. *)
Definition exportText (certificateData : CertificateData)
    (field : TextField.t) : CanvasOp :=
  let text := cell certificateData (TextField.label field) in
  let effectiveWidth := getEffectiveWidth field (Some certificateData) in
  let x :=
    match TextField.align field with
    | AlignCenter => TextField.x field + effectiveWidth / 2
    | AlignRight => TextField.x field + effectiveWidth
    | AlignLeft => TextField.x field
    end in
  let y := TextField.y field + TextField.height field / 2
           + TextField.fontSize field / 3 in
  FillText (TextField.fontSize field) (TextField.fontFamily field)
    (TextField.color field) (TextField.align field) text x y.

(** The promise settles (with the PNG blob) only from [img.onload];
    there is neither an [onerror] handler nor a [reject], so a
    template image that does not load leaves it pending: [None]. *)
Definition generateCertificateImage (editableFields : list TextField.t)
    (imageLoads : bool) (certificateData : CertificateData) : option Blob :=
  if imageLoads then
    Some {| srf_width := tpl_width template;
            srf_height := tpl_height template;
            srf_ops :=
              DrawImage (tpl_url template) 0 0
                (tpl_width template) (tpl_height template)
              :: map (exportText certificateData) editableFields |}
  else None.

(** [certificateData[editableFields[0]?.label] || `certificate-${i + 1}`];
    without a first field the key is [undefined], which indexes the
    property named "undefined". *)
Definition fileNameOf (editableFields : list TextField.t) (i : nat)
    (certificateData : CertificateData) : string :=
  let key :=
    match editableFields with
    | first :: _ => TextField.label first
    | [] => "undefined"
    end in
  let value := cell certificateData key in
  if truthyString value then value
  else "certificate-" +:+ pretty (i + 1)%nat.

(** The [for] loop of [generateAllCertificates] from index [i] on; the
    result is the state in which the run comes to rest.  [await] of a
    promise that stays pending never resumes. *)
Fixpoint exportLoop (editableFields : list TextField.t)
    (imageLoads : nat -> bool) (rows : list CertificateData) (i : nat)
    (st : ExportState) : ExportState :=
  match rows with
  | [] =>
      {| isGenerating := false;
         generatedCount := generatedCount st;
         zip := zip st;
         saved := Some (zip st) |}
  | certificateData :: rest =>
      match generateCertificateImage editableFields (imageLoads i)
              certificateData with
      | None => st
      | Some blob =>
          let fileName := fileNameOf editableFields i certificateData in
          let sanitizedFileName := replaceUnsafe fileName in
          exportLoop editableFields imageLoads rest (S i)
            {| isGenerating := isGenerating st;
               generatedCount := (i + 1)%nat;
               zip := zipFile (sanitizedFileName +:+ ".png") blob (zip st);
               saved := saved st |}
      end
  end.

Definition generateAllCertificates (editableFields : list TextField.t)
    (imageLoads : nat -> bool) : ExportState :=
  exportLoop editableFields imageLoads data 0
    {| isGenerating := true; generatedCount := 0; zip := []; saved := None |}.

(** The [forEach] callback of [renderPreview]. *)
Definition previewText (certificateData : CertificateData)
    (field : TextField.t) : CanvasOp :=
  let text := cell certificateData (TextField.label field) in
  let effectiveWidth := getEffectiveWidth field (Some certificateData) in
  let x :=
    match TextField.align field with
    | AlignCenter => TextField.x field + effectiveWidth / 2
    | AlignRight => TextField.x field + effectiveWidth
    | AlignLeft => TextField.x field
    end in
  let y := TextField.y field + TextField.height field / 2
           + TextField.fontSize field / 3 in
  FillText (TextField.fontSize field) (TextField.fontFamily field)
    (TextField.color field) (TextField.align field) text x y.

Definition renderPreview (editableFields : list TextField.t)
    (canvasPresent imageLoads : bool) : PreviewResult :=
  if negb canvasPresent then NoCanvas
  else if negb imageLoads then Blank (tpl_width template) (tpl_height template)
  else
    let background :=
      [ClearRect 0 0 (tpl_width template) (tpl_height template);
       DrawImage (tpl_url template) 0 0
         (tpl_width template) (tpl_height template)] in
    match data !! previewIndex, editableFields with
    | Some certificateData, _ =>
        Painted {| srf_width := tpl_width template;
                   srf_height := tpl_height template;
                   srf_ops := background
                              ++ map (previewText certificateData) editableFields |}
    | None, [] =>
        Painted {| srf_width := tpl_width template;
                   srf_height := tpl_height template;
                   srf_ops := background |}
    | None, _ :: _ =>
        Threw {| srf_width := tpl_width template;
                 srf_height := tpl_height template;
                 srf_ops := background |}
    end.

(** The hit-boxes of [renderEditOverlay]; [None] when nothing is
    rendered. *)
Definition renderEditOverlay (refs : Refs) (st : State) : option (list BoxStyle) :=
  if negb (isEditMode st) then None
  else
    match canvasRef refs with
    | None => None
    | Some canvas =>
        let canvasRect := cv_rect canvas in
        let scaleX := rect_width canvasRect / cv_width canvas in
        let scaleY := rect_height canvasRect / cv_height canvas in
        Some (map (fun field =>
                     let effectiveWidth :=
                       getEffectiveWidth field (data !! previewIndex) in
                     {| box_left := TextField.x field * scaleX;
                        box_top := TextField.y field * scaleY;
                        box_width := effectiveWidth * scaleX;
                        box_height := TextField.height field * scaleY |})
                (editableFields st))
    end.

(** [useState<TextField[]>(fields)] and the other initial states. *)
Definition initialState (fields : list TextField.t) : State :=
  {| editableFields := fields;
     selectedField := None;
     isDragging := false;
     dragOffset := (0, 0);
     isEditMode := false |}.

Definition resetFields (fields : list TextField.t) (st : State) : State :=
  {| editableFields := fields;
     selectedField := None;
     isDragging := isDragging st;
     dragOffset := dragOffset st;
     isEditMode := isEditMode st |}.

End Component.

End Generator.

(** ** FieldDesigner (design-time editing) *)

Module Designer.

(** [containerRef.current] is only tested for presence; of the image
    element only its bounding box is read. *)
Record Refs := {
  containerRef : bool;
  imageRef : option DOMRect
}.

(** [fields] is a prop; [onFieldsChange] hands the new collection to the
    parent, which passes it back as the next [fields]. *)
Record State := {
  fields : list TextField.t;
  selectedField : option string;
  isDragging : bool;
  dragOffset : Q * Q
}.

(** Dummy text for preview based on common field names. *)
Definition getDummyText (label : string) : string :=
  let lowerLabel := toLowerCase label in
  if includes lowerLabel "name" then "John Smith"
  else if includes lowerLabel "course" then "Web Development"
  else if includes lowerLabel "date" then "2024-01-15"
  else if includes lowerLabel "grade" then "A+"
  else if includes lowerLabel "instructor" then "Dr. Johnson"
  else if includes lowerLabel "institution" then "Tech Academy"
  else if includes lowerLabel "score" then "95%"
  else if includes lowerLabel "duration" then "6 months"
  else if includes lowerLabel "certificate" then "Certificate of Completion"
  else "Sample Text".

Section Component.
Variable measureText : Measure.
Variable template : Template.

Definition getEffectiveWidth (field : TextField.t) : Q :=
  if TextField.autoWidth field then
    let dummyText := getDummyText (TextField.label field) in
    calculateTextWidth measureText dummyText
      (TextField.fontSize field) (TextField.fontFamily field)
  else TextField.width field.

(** The body of the [map] callback of [updateField] on the field that
    has the given id. *)
Definition updateOne (field : TextField.t) (updates : Patch.t) : TextField.t :=
  let updatedField := spread field updates in
  let updatedField :=
    match Patch.autoWidth updates with
    | Some true =>
        let dummyText := getDummyText (TextField.label updatedField) in
        setWidth updatedField
          (calculateTextWidth measureText dummyText
             (TextField.fontSize updatedField)
             (TextField.fontFamily updatedField))
    | _ => updatedField
    end in
  if TextField.autoWidth updatedField
     && (truthyKey truthyNumber (Patch.fontSize updates)
         || truthyKey truthyString (Patch.fontFamily updates)
         || truthyKey truthyString (Patch.label updates))
  then
    let dummyText := getDummyText (TextField.label updatedField) in
    setWidth updatedField
      (calculateTextWidth measureText dummyText
         (TextField.fontSize updatedField)
         (TextField.fontFamily updatedField))
  else updatedField.

Definition updateField (id : string) (updates : Patch.t)
    (fields : list TextField.t) : list TextField.t :=
  map (fun field =>
         if String.eqb (TextField.id field) id
         then updateOne field updates
         else field) fields.

(** The pointer in template pixels, as both mouse handlers compute it. *)
Definition relativePos (imageRect : DOMRect) (e : MouseEvent) : Q * Q :=
  let scaleX := tpl_width template / rect_width imageRect in
  let scaleY := tpl_height template / rect_height imageRect in
  ((clientX e - rect_left imageRect) * scaleX,
   (clientY e - rect_top imageRect) * scaleY).

Definition handleMouseDown (refs : Refs) (e : MouseEvent) (fieldId : string)
    (st : State) : State :=
  let offset :=
    match List.find (fun f => String.eqb (TextField.id f) fieldId) (fields st),
          containerRef refs, imageRef refs with
    | Some field, true, Some imageRect =>
        let '(relativeX, relativeY) := relativePos imageRect e in
        (relativeX - TextField.x field, relativeY - TextField.y field)
    | _, _, _ => dragOffset st
    end in
  {| fields := fields st;
     selectedField := Some fieldId;
     isDragging := true;
     dragOffset := offset |}.

Definition handleMouseMove (refs : Refs) (e : MouseEvent) (st : State) : State :=
  if negb (isDragging st)
     || negb (truthyKey truthyString (selectedField st))
     || negb (containerRef refs)
  then st
  else
    match selectedField st, imageRef refs with
    | Some selected, Some imageRect =>
        let '(relativeX, relativeY) := relativePos imageRect e in
        let x := Qmax 0 (Qmin (tpl_width template - 50)
                           (relativeX - fst (dragOffset st))) in
        let y := Qmax 0 (Qmin (tpl_height template - 20)
                           (relativeY - snd (dragOffset st))) in
        let updates :=
          Patch.mk None None (Some x) (Some y) None None None None None None None in
        {| fields := updateField selected updates (fields st);
           selectedField := selectedField st;
           isDragging := isDragging st;
           dragOffset := dragOffset st |}
    | _, _ => st
    end.

Definition handleMouseUp (st : State) : State :=
  {| fields := fields st;
     selectedField := selectedField st;
     isDragging := false;
     dragOffset := dragOffset st |}.

(** [addField]; [now] is the value of [Date.now()]. *)
Definition addField (now : Z) (st : State) : State :=
  let newField :=
    {| TextField.id := "field-" +:+ pretty now;
       TextField.label := "Field " +:+ pretty (length (fields st) + 1)%nat;
       TextField.x := 100;
       TextField.y := 100;
       TextField.width := 2500;
       TextField.height := 300;
       TextField.fontSize := 200;
       TextField.fontFamily := "Arial";
       TextField.color := "#000000";
       TextField.align := AlignCenter;
       TextField.autoWidth := false |} in
  {| fields := fields st ++ [newField];
     selectedField := Some (TextField.id newField);
     isDragging := isDragging st;
     dragOffset := dragOffset st |}.

Definition deleteField (id : string) (st : State) : State :=
  {| fields := List.filter (fun field => negb (String.eqb (TextField.id field) id))
                 (fields st);
     selectedField := None;
     isDragging := isDragging st;
     dragOffset := dragOffset st |}.

End Component.

End Designer.

(** ** The specification's formulas, in its own words *)

Module Spec.

(** [anchorX(field, effectiveWidth)] of the specification. *)
Definition anchorX (field : TextField.t) (effectiveWidth : Q) : Q :=
  match TextField.align field with
  | AlignLeft => TextField.x field
  | AlignCenter => TextField.x field + effectiveWidth / 2
  | AlignRight => TextField.x field + effectiveWidth
  end.

(** [anchorY(field)] of the specification. *)
Definition anchorY (field : TextField.t) : Q :=
  TextField.y field + TextField.height field / 2 + TextField.fontSize field / 3.

(** [toTemplateSpace(pointerX, pointerY, displayRect, nativeW, nativeH)]
    of the specification. *)
Definition toTemplateSpace (pointerX pointerY : Q) (displayRect : DOMRect)
    (nativeW nativeH : Q) : Q * Q :=
  ((pointerX - rect_left displayRect) * nativeW / rect_width displayRect,
   (pointerY - rect_top displayRect) * nativeH / rect_height displayRect).

End Spec.

(** ** A concrete text measurement used to run the model

    Every character advances by half the font size. *)
Definition halfEmMeasure : Measure :=
  fun fontSize _ text => inject_Z (Z.of_nat (String.length text)) * fontSize / 2.

(** The archive in which every row has an entry of its own, in row order:
    what the export delivers when no two rows share a file name. *)
Fixpoint entriesFrom (template : Template) (measureText : Measure)
    (editableFields : list TextField.t) (i : nat)
    (rows : list CertificateData) : Zip :=
  match rows with
  | [] => []
  | row :: rest =>
      (replaceUnsafe (Generator.fileNameOf editableFields i row) +:+ ".png",
       {| srf_width := tpl_width template;
          srf_height := tpl_height template;
          srf_ops :=
            DrawImage (tpl_url template) 0 0 (tpl_width template) (tpl_height template)
            :: map (Generator.exportText measureText row) editableFields |})
      :: entriesFrom template measureText editableFields (S i) rest
  end.

(** The text bound to a field by a row that may be absent. *)
Definition boundText (field : TextField.t)
    (certificateData : option CertificateData) : string :=
  match certificateData with
  | Some row => cell row (TextField.label field)
  | None => ""
  end.

(** The field moved to a new position, everything else kept. *)
Definition moveTo (field : TextField.t) (nx ny : Q) : TextField.t :=
  {| TextField.id := TextField.id field;
     TextField.label := TextField.label field;
     TextField.x := nx;
     TextField.y := ny;
     TextField.width := TextField.width field;
     TextField.height := TextField.height field;
     TextField.fontSize := TextField.fontSize field;
     TextField.fontFamily := TextField.fontFamily field;
     TextField.color := TextField.color field;
     TextField.align := TextField.align field;
     TextField.autoWidth := TextField.autoWidth field |}.

(** ** Concrete inputs used to run the model *)

Definition rowAnn : CertificateData := {[ "Name" := "Ann" ]}.

Definition nameField (autoWidth : bool) : TextField.t :=
  {| TextField.id := "field-1"; TextField.label := "Name";
     TextField.x := 100; TextField.y := 100;
     TextField.width := 300; TextField.height := 40;
     TextField.fontSize := 24; TextField.fontFamily := "Arial";
     TextField.color := "#000000"; TextField.align := AlignCenter;
     TextField.autoWidth := autoWidth |}.

(** The position a drag move gives the dragged field: the pointer's
    position in template pixels minus the drag offset, brought into the
    canvas. *)
Definition clampedDrop (template : Template) (pointer offset : Q * Q) : Q * Q :=
  (Qmax 0 (Qmin (tpl_width template - 50) (fst pointer - fst offset)),
   Qmax 0 (Qmin (tpl_height template - 20) (snd pointer - snd offset))).

Definition template1000x600 : Template :=
  {| tpl_url := "blob:template"; tpl_width := 1000; tpl_height := 600 |}.

(** A canvas shown at half its native size, 10 pixels from the left edge
    and 20 from the top of the viewport. *)
Definition halfSizeRect : DOMRect :=
  {| rect_left := 10; rect_top := 20; rect_width := 500; rect_height := 300 |}.

Definition halfSizeCanvas : Generator.Canvas :=
  {| Generator.cv_width := 1000; Generator.cv_height := 600;
     Generator.cv_rect := halfSizeRect |}.

Definition generatorRefs : Generator.Refs :=
  {| Generator.containerRef := true; Generator.canvasRef := Some halfSizeCanvas |}.

Definition designerRefs : Designer.Refs :=
  {| Designer.containerRef := true; Designer.imageRef := Some halfSizeRect |}.

Definition generatorDragging : Generator.State :=
  {| Generator.editableFields := [nameField false];
     Generator.selectedField := Some "field-1";
     Generator.isDragging := true;
     Generator.dragOffset := (0, 0);
     Generator.isEditMode := true |}.

Definition designerDragging : Designer.State :=
  {| Designer.fields := [nameField false];
     Designer.selectedField := Some "field-1";
     Designer.isDragging := true;
     Designer.dragOffset := (0, 0) |}.

(** A pointer far to the right of and above the displayed template. *)
Definition farPointer : MouseEvent := {| clientX := 2000; clientY := -5 |}.

(** The patch [{ x, y }] of a drag move. *)
Definition positionPatch (nx ny : Q) : Patch.t :=
  Patch.mk None None (Some nx) (Some ny) None None None None None None None.

(** Where a clamped position lies, given the position that was asked
    for: inside the canvas; at most the template size minus the minimum
    (50 wide, 20 high) when the template is that large; at 0 when the
    wanted coordinate is not positive; at the upper bound when it is
    beyond; and the wanted coordinate itself when that is in range. *)
Definition dropBounds (template : Template) (wanted drop : Q * Q) : Prop :=
  (0 <= fst drop <= tpl_width template /\ 0 <= snd drop <= tpl_height template)
  /\ (50 <= tpl_width template -> fst drop <= tpl_width template - 50)
  /\ (20 <= tpl_height template -> snd drop <= tpl_height template - 20)
  /\ (fst wanted <= 0 -> fst drop == 0)
  /\ (snd wanted <= 0 -> snd drop == 0)
  /\ (50 <= tpl_width template -> tpl_width template - 50 <= fst wanted ->
      fst drop == tpl_width template - 50)
  /\ (20 <= tpl_height template -> tpl_height template - 20 <= snd wanted ->
      snd drop == tpl_height template - 20)
  /\ (0 <= fst wanted <= tpl_width template - 50 -> fst drop == fst wanted)
  /\ (0 <= snd wanted <= tpl_height template - 20 -> snd drop == snd wanted).

(** A pointer inside the displayed canvas, and an editing state whose only
    field sits exactly where that pointer is in template pixels. *)
Definition insidePointer : MouseEvent := {| clientX := 110; clientY := 70 |}.

Definition generatorEditing : Generator.State :=
  {| Generator.editableFields :=
       [moveTo (nameField false)
          (fst (Generator.relativePos halfSizeCanvas insidePointer))
          (snd (Generator.relativePos halfSizeCanvas insidePointer))];
     Generator.selectedField := None;
     Generator.isDragging := false;
     Generator.dragOffset := (0, 0);
     Generator.isEditMode := true |}.

(** Filing a list of entries one after the other, as the export loop does. *)
Definition fileAll (zip : Zip) (entries : Zip) : Zip :=
  foldl (fun z entry => zipFile (fst entry) (snd entry) z) zip entries.

Fixpoint allSafe (s : string) : bool :=
  match s with
  | EmptyString => true
  | String c s' => safeChar c && allSafe s'
  end.

Definition rowBeatrice : CertificateData := {[ "Name" := "Beatrice Montgomery" ]}.

(** The template image loads for every row but the second. *)
Definition secondFails (i : nat) : bool := negb (Nat.eqb i 1).

(** The field of the specification's end-to-end example; its id, font
    family and colour are left open there. *)
Definition exampleField (id fontFamily color : string) : TextField.t :=
  {| TextField.id := id; TextField.label := "Name";
     TextField.x := 100; TextField.y := 100;
     TextField.width := 300; TextField.height := 40;
     TextField.fontSize := 24; TextField.fontFamily := fontFamily;
     TextField.color := color; TextField.align := AlignCenter;
     TextField.autoWidth := false |}.

(** A row whose Name cell is empty. *)
Definition rowBlank : CertificateData := {[ "Name" := "" ]}.

(** The patch [{ autoWidth: true }]. *)
Definition enableAutoWidth : Patch.t :=
  Patch.mk None None None None None None None None None None (Some true).

(** The patch [{ fontSize: 48 }]. *)
Definition fontSize48 : Patch.t :=
  Patch.mk None None None None None None (Some 48) None None None None.

(** ** Pointer events as the components wire them

    The container receives [onMouseMove], [onMouseUp] and [onMouseLeave];
    a field's hit-box receives [onMouseDown]. *)
Inductive PointerEvent :=
  | MouseDown (fieldId : string) (e : MouseEvent)
  | MouseMove (e : MouseEvent)
  | MouseUp
  | MouseLeave.

Definition generatorPointer (measureText : Measure) (template : Template)
    (data : list CertificateData) (previewIndex : nat) (refs : Generator.Refs)
    (st : Generator.State) (event : PointerEvent) : Generator.State :=
  match event with
  | MouseDown fieldId e => Generator.handleMouseDown refs e fieldId st
  | MouseMove e =>
      Generator.handleMouseMove measureText template data previewIndex refs e st
  | MouseUp => Generator.handleMouseUp st
  | MouseLeave => Generator.handleMouseUp st
  end.

Definition designerPointer (measureText : Measure) (template : Template)
    (refs : Designer.Refs) (st : Designer.State) (event : PointerEvent)
    : Designer.State :=
  match event with
  | MouseDown fieldId e => Designer.handleMouseDown template refs e fieldId st
  | MouseMove e => Designer.handleMouseMove measureText template refs e st
  | MouseUp => Designer.handleMouseUp st
  | MouseLeave => Designer.handleMouseUp st
  end.

(** The same field at a position that is equal as a number. *)
Definition placedAt (field : TextField.t) (tx ty : Q) (moved : TextField.t) : Prop :=
  exists nx ny, moved = moveTo field nx ny /\ nx == tx /\ ny == ty.

(** A pointer 100 display pixels right of and 50 below [insidePointer]. *)
Definition farCorner : MouseEvent := {| clientX := 210; clientY := 120 |}.

Definition isMouseDown (event : PointerEvent) : bool :=
  match event with
  | MouseDown _ _ => true
  | _ => false
  end.

(** ** The designer's editing actions *)

Inductive DesignerAction :=
  | AddField (now : Z)
  | DeleteField (id : string)
  | UpdateField (id : string) (updates : Patch.t)
  | Pointer (event : PointerEvent).

(** [updateField] in the designer hands the new collection to the parent. *)
Definition designerUpdate (measureText : Measure) (id : string)
    (updates : Patch.t) (st : Designer.State) : Designer.State :=
  {| Designer.fields := Designer.updateField measureText id updates (Designer.fields st);
     Designer.selectedField := Designer.selectedField st;
     Designer.isDragging := Designer.isDragging st;
     Designer.dragOffset := Designer.dragOffset st |}.

Definition designerStep (measureText : Measure) (template : Template)
    (refs : Designer.Refs) (st : Designer.State) (action : DesignerAction)
    : Designer.State :=
  match action with
  | AddField now => Designer.addField now st
  | DeleteField id => Designer.deleteField id st
  | UpdateField id updates => designerUpdate measureText id updates st
  | Pointer event => designerPointer measureText template refs st event
  end.

(** A key of a patch is absent or carries a truthy value. *)
Definition absentOrTruthy {A} (truthy : A -> bool) (o : option A) : bool :=
  match o with
  | Some a => truthy a
  | None => true
  end.

(** The patches the property panel sends when every value typed is truthy:
    label, font size and font family are absent or truthy, and a width
    comes together with [autoWidth: false]. *)
Definition panelPatch (updates : Patch.t) : bool :=
  absentOrTruthy truthyString (Patch.label updates)
  && absentOrTruthy truthyNumber (Patch.fontSize updates)
  && absentOrTruthy truthyString (Patch.fontFamily updates)
  && match Patch.width updates with
     | Some _ => match Patch.autoWidth updates with
                 | Some false => true
                 | _ => false
                 end
     | None => true
     end.

Definition panelAction (action : DesignerAction) : bool :=
  match action with
  | UpdateField _ updates => panelPatch updates
  | _ => true
  end.

Definition designerStart : Designer.State :=
  {| Designer.fields := [];
     Designer.selectedField := None;
     Designer.isDragging := false;
     Designer.dragOffset := (0, 0) |}.

(** The patch [{ label: "Course" }]. *)
Definition labelCourse : Patch.t :=
  Patch.mk None (Some "Course") None None None None None None None None None.

(** The stored width of a field is the width the designer shows for it. *)
Definition storedWidthCurrent (measureText : Measure) (field : TextField.t) : Prop :=
  Designer.getEffectiveWidth measureText field = TextField.width field.

(** Reading the entry of a name back from the archive. *)
Definition zipLookup (name : string) (zip : Zip) : option Blob :=
  snd <$> List.find (fun entry => String.eqb (fst entry) name) zip.

(** Three rows of which the first and the last share the name Ann. *)
Definition rowAnnLate : CertificateData := {[ "Name" := "Ann"; "Course" := "Late" ]}.

(** The [Date.now()] values of the fields added by a list of actions. *)
Fixpoint stamps (actions : list DesignerAction) : list Z :=
  match actions with
  | [] => []
  | AddField now :: rest => now :: stamps rest
  | _ :: rest => stamps rest
  end.

(** An action that does not patch the id of a field. *)
Definition keepsId (action : DesignerAction) : bool :=
  match action with
  | UpdateField _ updates =>
      match Patch.id updates with
      | None => true
      | Some _ => false
      end
  | _ => true
  end.

(** The words [getDummyText] looks for, in the order it looks for them. *)
Definition dummyKeywords : list string :=
  ["name"; "course"; "date"; "grade"; "instructor"; "institution";
   "score"; "duration"; "certificate"].

(** ** The wizard (App.tsx) and its step indicator *)

Inductive Step := Upload | Design | Data | Generate.

Definition Step_eqb (a b : Step) : bool :=
  match a, b with
  | Upload, Upload | Design, Design | Data, Data | Generate, Generate => true
  | _, _ => false
  end.

(** [completedSteps.includes(step)] *)
Definition includesStep (steps : list Step) (step : Step) : bool :=
  existsb (Step_eqb step) steps.

Module StepIndicator.

Inductive Status := Completed | Current | Upcoming.

(** The [key]s of [steps], in order. *)
Definition steps : list Step := [Upload; Design; Data; Generate].

Section Component.
Variable currentStep : Step.
Variable completedSteps : list Step.

Definition getStepStatus (stepKey : Step) : Status :=
  if includesStep completedSteps stepKey then Completed
  else if Step_eqb stepKey currentStep then Current
  else Upcoming.

(** [steps.findIndex(step => step.key === currentStep)]; -1 when no step
    matches. *)
Definition getCurrentStepIndex : Z :=
  (fix findIndex (l : list Step) (i : Z) : Z :=
     match l with
     | [] => -1
     | step :: rest => if Step_eqb step currentStep then i else findIndex rest (i + 1)
     end)%Z steps 0%Z.

End Component.

End StepIndicator.

Module App.

Record State := {
  currentStep : Step;
  completedSteps : list Step;
  template : option Template;
  fields : list TextField.t;
  data : list CertificateData
}.

Definition initial : State :=
  {| currentStep := Upload; completedSteps := []; template := None;
     fields := []; data := [] |}.

Definition setCurrentStep (step : Step) (st : State) : State :=
  {| currentStep := step; completedSteps := completedSteps st;
     template := template st; fields := fields st; data := data st |}.

Definition markStepCompleted (step : Step) (st : State) : State :=
  if negb (includesStep (completedSteps st) step) then
    {| currentStep := currentStep st;
       completedSteps := completedSteps st ++ [step];
       template := template st; fields := fields st; data := data st |}
  else st.

(** [onTemplateUpload]; the "Change Template" button passes [null]. *)
Definition handleTemplateUpload (newTemplate : option Template) (st : State) : State :=
  {| currentStep := currentStep st; completedSteps := completedSteps st;
     template := newTemplate; fields := fields st; data := data st |}.

Definition setFields (newFields : list TextField.t) (st : State) : State :=
  {| currentStep := currentStep st; completedSteps := completedSteps st;
     template := template st; fields := newFields; data := data st |}.

Definition setData (newData : list CertificateData) (st : State) : State :=
  {| currentStep := currentStep st; completedSteps := completedSteps st;
     template := template st; fields := fields st; data := newData |}.

Definition handleNextFromUpload (st : State) : State :=
  setCurrentStep Design (markStepCompleted Upload st).

Definition handleNextFromDesign (st : State) : State :=
  setCurrentStep Data (markStepCompleted Design st).

Definition handleNextFromData (st : State) : State :=
  setCurrentStep Generate (markStepCompleted Data st).

Definition handleBackToUpload (st : State) : State := setCurrentStep Upload st.

Definition handleBackToDesign (st : State) : State := setCurrentStep Design st.

Definition handleBackToData (st : State) : State := setCurrentStep Data st.

Definition handleReset (st : State) : State := initial.

(** What the user, an image that finishes loading, or a parse that
    completes can make the wizard do. *)
Inductive Action :=
  | TemplateLoaded (t : Template)
  | ChangeTemplate
  | NextFromUpload
  | DesignerFields (newFields : list TextField.t)
  | NextFromDesign
  | BackFromDesign
  | ImportedData (rows : list CertificateData)
  | AutoFields (newFields : list TextField.t)
  | ClearData
  | NextFromData
  | BackFromData
  | BackFromGenerate
  | Reset.

Definition isSome {A} (o : option A) : bool :=
  match o with
  | Some _ => true
  | None => false
  end.

Definition nonEmpty {A} (l : list A) : bool :=
  match l with
  | [] => false
  | _ :: _ => true
  end.

(** Whether the control behind an action is there to be used: a
    component is rendered for its step only (the designer and the
    generator only with a template); "Change Template" and "Continue to
    Design" need a template; "Continue to Data Import" is disabled
    without fields and the data step's Next without data; the data step
    hands on only non-empty data and non-empty auto-created fields, and
    offers "Upload Different File" only when there is data.  An image or
    a parse may complete at any time. *)
Definition enabled (st : State) (action : Action) : bool :=
  match action with
  | TemplateLoaded _ => true
  | ChangeTemplate => Step_eqb (currentStep st) Upload && isSome (template st)
  | NextFromUpload => Step_eqb (currentStep st) Upload && isSome (template st)
  | DesignerFields _ => Step_eqb (currentStep st) Design && isSome (template st)
  | NextFromDesign =>
      Step_eqb (currentStep st) Design && isSome (template st) && nonEmpty (fields st)
  | BackFromDesign => Step_eqb (currentStep st) Design && isSome (template st)
  | ImportedData rows => nonEmpty rows
  | AutoFields newFields => Step_eqb (currentStep st) Data && nonEmpty newFields
  | ClearData => Step_eqb (currentStep st) Data && nonEmpty (data st)
  | NextFromData => Step_eqb (currentStep st) Data && nonEmpty (data st)
  | BackFromData => Step_eqb (currentStep st) Data
  | BackFromGenerate => Step_eqb (currentStep st) Generate && isSome (template st)
  | Reset => Step_eqb (currentStep st) Generate && isSome (template st)
  end.

Definition handle (st : State) (action : Action) : State :=
  match action with
  | TemplateLoaded t => handleTemplateUpload (Some t) st
  | ChangeTemplate => handleTemplateUpload None st
  | NextFromUpload => handleNextFromUpload st
  | DesignerFields newFields => setFields newFields st
  | NextFromDesign => handleNextFromDesign st
  | BackFromDesign => handleBackToUpload st
  | ImportedData rows => setData rows st
  | AutoFields newFields => setFields newFields st
  | ClearData => setData [] st
  | NextFromData => handleNextFromData st
  | BackFromData => handleBackToDesign st
  | BackFromGenerate => handleBackToData st
  | Reset => handleReset st
  end.

Definition step (st : State) (action : Action) : State :=
  if enabled st action then handle st action else st.

Definition run (actions : list Action) : State := foldl step initial actions.

End App.

(** The position of a step in the wizard. *)
Definition stepOrder (step : Step) : nat :=
  match step with
  | Upload => 0
  | Design => 1
  | Data => 2
  | Generate => 3
  end.

(** What holds of the wizard's state whatever the user does. *)
Definition wizardInvariant (st : App.State) : Prop :=
  (App.currentStep st = Upload \/ App.template st <> None)
  /\ ((2 <= stepOrder (App.currentStep st))%nat -> App.fields st <> [])
  /\ (App.currentStep st = Generate -> App.data st <> [])
  /\ NoDup (App.completedSteps st)
  /\ includesStep (App.completedSteps st) Generate = false
  /\ (forall s, (stepOrder s < stepOrder (App.currentStep st))%nat ->
                includesStep (App.completedSteps st) s = true)
  /\ (forall s s', (stepOrder s' <= stepOrder s)%nat ->
                   includesStep (App.completedSteps st) s = true ->
                   includesStep (App.completedSteps st) s' = true).

(** ** DataImport (CSV import and automatic field creation) *)

(** White space as [String.prototype.trim] sees it, among 8-bit
    characters: tab, line feed, vertical tab, form feed, carriage return,
    space and no-break space. *)
Definition isSpace (c : ascii) : bool :=
  inRange 9 13 c || (N_of_ascii c =? 32)%N || (N_of_ascii c =? 160)%N.

(** [s.trim() === ''] *)
Fixpoint isBlank (s : string) : bool :=
  match s with
  | EmptyString => true
  | String c s' => isSpace c && isBlank s'
  end.

Module DataImport.

Record State := {
  isProcessing : bool;
  errors : list string;
  showPreview : bool;
  detectedColumns : list string;
  showColumnMapping : bool
}.

(** What PapaParse hands to [complete]: the rows and the messages of its
    errors. *)
Record ParseResults := {
  res_data : list CertificateData;
  res_errors : list string
}.

(** A parse ends in [complete] or in [error]. *)
Inductive ParseOutcome :=
  | Complete (results : ParseResults)
  | Error (message : string).

(** [Object.values(row).some(value => value && value.toString().trim() !== '')] *)
Definition hasContent (row : CertificateData) : bool :=
  existsb (fun value => truthyString value && negb (isBlank value))
    (map snd (map_to_list row)).

Section Component.
(** [Object.keys]: the keys of a row in their enumeration order. *)
Variable keysOf : CertificateData -> list string.
Variable fields : list TextField.t.

(** [autoMapFields]; [clock index] is the value of [Date.now()] when the
    field of column [index] is built.  The fields are built without an
    [autoWidth] key, which every reader treats as false. *)
Definition autoMapFields (clock : nat -> Z) (st : State)
    : State * option (list TextField.t) :=
  match detectedColumns st with
  | [] => (st, None)
  | _ :: _ =>
      let newFields :=
        imap (fun index column =>
                {| TextField.id :=
                     "field-" +:+ pretty (clock index) +:+ "-" +:+ pretty index;
                   TextField.label := column;
                   TextField.x := 100 + inject_Z (Z.of_nat (index mod 2)) * 300;
                   TextField.y := 150 + inject_Z (Z.of_nat (index / 2)) * 80;
                   TextField.width := 250;
                   TextField.height := 40;
                   TextField.fontSize := 18;
                   TextField.fontFamily := "Arial";
                   TextField.color := "#000000";
                   TextField.align := AlignCenter;
                   TextField.autoWidth := false |})
          (detectedColumns st) in
      ({| isProcessing := isProcessing st;
          errors := errors st;
          showPreview := showPreview st;
          detectedColumns := detectedColumns st;
          showColumnMapping := false |},
       Some newFields)
  end.

(** [processFile] from its start to the end of the parse: the state it
    leaves and the rows it hands to [onDataChange], if any. *)
Definition processFile (outcome : ParseOutcome) (st : State)
    : State * option (list CertificateData) :=
  let finish errs columns mapping handed :=
    ({| isProcessing := false;
        errors := errs;
        showPreview := showPreview st;
        detectedColumns := columns;
        showColumnMapping := mapping |},
     handed) in
  match outcome with
  | Error message => finish [message] [] (showColumnMapping st) None
  | Complete results =>
      match res_errors results with
      | _ :: _ => finish (res_errors results) [] (showColumnMapping st) None
      | [] =>
          let validData := List.filter hasContent (res_data results) in
          match validData with
          | [] => finish ["No valid data found in the file"] []
                    (showColumnMapping st) None
          | first :: _ =>
              let columns :=
                List.filter (fun key => negb (isBlank key)) (keysOf first) in
              match fields with
              | [] => finish [] columns true (Some validData)
              | _ :: _ =>
                  let fieldLabels := map TextField.label fields in
                  let missingFields :=
                    List.filter
                      (fun field => negb (existsb (String.eqb field) columns))
                      fieldLabels in
                  match missingFields with
                  | _ :: _ =>
                      finish ["Missing required columns: "
                              +:+ String.concat ", " missingFields]
                        columns true None
                  | [] => finish [] columns (showColumnMapping st) (Some validData)
                  end
              end
          end
      end
  end.

End Component.

End DataImport.

(** The corners of a field's box do not reach into another field's box. *)
Definition boxesApart (a b : TextField.t) : Prop :=
  TextField.x a + TextField.width a <= TextField.x b
  \/ TextField.x b + TextField.width b <= TextField.x a
  \/ TextField.y a + TextField.height a <= TextField.y b
  \/ TextField.y b + TextField.height b <= TextField.y a.

Definition importIdle (columns : list string) : DataImport.State :=
  {| DataImport.isProcessing := false;
     DataImport.errors := [];
     DataImport.showPreview := false;
     DataImport.detectedColumns := columns;
     DataImport.showColumnMapping := true |}.

(** The keys of a row in the order of the finite map. *)
Definition sortedKeys (row : CertificateData) : list string :=
  map fst (map_to_list row).

Definition rowSpaces : CertificateData := {[ "Name" := "  " ]}.

Fixpoint noDash (s : string) : bool :=
  match s with
  | EmptyString => true
  | String c s' => negb (Ascii.eqb c "-") && noDash s'
  end.

(** A parse of three rows of which the middle one is blank. *)
Definition parsedThree : DataImport.ParseOutcome :=
  DataImport.Complete
    {| DataImport.res_data := [rowAnn; rowSpaces; rowBeatrice];
       DataImport.res_errors := [] |}.

(** * Properties *)

(** ** Basic facts about the helpers *)

Lemma truthyString_true (s : string) : truthyString s = true <-> s <> "".
Proof.
  unfold truthyString. destruct (String.eqb_spec s ""); simpl; split; congruence.
Qed.

Lemma truthyString_false (s : string) : truthyString s = false <-> s = "".
Proof.
  unfold truthyString. destruct (String.eqb_spec s ""); simpl; split; congruence.
Qed.

Lemma cell_lookup (row : CertificateData) (key : string) :
  cell row key = default "" (row !! key).
Proof.
  unfold cell. destruct (row !! key) as [v|]; simpl; [|reflexivity].
  destruct (truthyString v) eqn:E; [reflexivity|].
  apply truthyString_false in E. congruence.
Qed.

Lemma Qceiling_plus_Z (q : Q) (z : Z) :
  Qceiling (q + inject_Z z) = (Qceiling q + z)%Z.
Proof.
  apply Z.le_antisymm.
  - rewrite <- (Qceiling_Z (Qceiling q + z)).
    apply Qceiling_resp_le. rewrite inject_Z_plus.
    apply Qplus_le_compat; [apply Qle_ceiling | apply Qle_refl].
  - pose proof (Qceiling_lt q) as Hlt.
    pose proof (Qle_ceiling (q + inject_Z z)) as Hle.
    assert (H : inject_Z (Qceiling q - 1 + z) < inject_Z (Qceiling (q + inject_Z z))).
    { eapply Qlt_le_trans; [|exact Hle]. rewrite inject_Z_plus.
      apply Qplus_lt_le_compat; [exact Hlt | apply Qle_refl]. }
    rewrite <- Zlt_Qlt in H. lia.
Qed.

(** ** Text metrics *)

(** C6: the text-metrics function returns the measured width rounded up to
    an integer plus the padding 20 (which is also the padded width rounded
    up); for a non-negative measurement the result is at least the padding,
    and for the empty string, which measures 0, it is the padding alone. *)
Theorem calculateTextWidth_padded (measureText : Measure)
    (text : string) (fontSize : Q) (fontFamily : string)
    (Hnonneg : forall t, 0 <= measureText fontSize fontFamily t)
    (Hempty : measureText fontSize fontFamily "" == 0) :
  let measured := measureText fontSize fontFamily text in
  let result := calculateTextWidth measureText text fontSize fontFamily in
  result = inject_Z (Qceiling measured) + 20
  /\ result == inject_Z (Qceiling (measured + 20))
  /\ measured + 20 <= result < measured + 20 + 1
  /\ 20 <= result
  /\ calculateTextWidth measureText "" fontSize fontFamily == 20.
Proof.
  intros measured result. subst result. unfold calculateTextWidth.
  fold measured.
  pose proof (Qle_ceiling measured) as Hup.
  pose proof (Qceiling_lt measured) as Hlow.
  assert (H0 : 0 <= measured) by apply Hnonneg.
  clearbody measured.
  unfold Z.sub in Hlow. rewrite inject_Z_plus, inject_Z_opp in Hlow.
  change (inject_Z 1) with 1 in Hlow.
  split; [reflexivity|].
  split.
  { change 20 with (inject_Z 20) at 2.
    rewrite Qceiling_plus_Z, inject_Z_plus. reflexivity. }
  split; [|split].
  - generalize dependent (inject_Z (Qceiling measured)). intros c Hup Hlow. lra.
  - generalize dependent (inject_Z (Qceiling measured)). intros c Hup Hlow. lra.
  - rewrite (Qceiling_comp _ _ Hempty). reflexivity.
Qed.

Lemma halfEmMeasure_nonneg (fontSize : Q) (fontFamily text : string) :
  0 <= fontSize -> 0 <= halfEmMeasure fontSize fontFamily text.
Proof.
  intros H. unfold halfEmMeasure.
  assert (0 <= inject_Z (Z.of_nat (String.length text))).
  { change 0 with (inject_Z 0). rewrite <- Zle_Qle. lia. }
  apply Qle_shift_div_l; [reflexivity|]. nra.
Qed.

Lemma calculateTextWidth_padded_witness :
  calculateTextWidth halfEmMeasure "Ann" 24 "Arial" = inject_Z 36 + 20
  /\ calculateTextWidth halfEmMeasure "" 24 "Arial" == 20.
Proof.
  assert (Hn : forall t, 0 <= halfEmMeasure 24 "Arial" t).
  { intros t. apply halfEmMeasure_nonneg. discriminate. }
  assert (He : halfEmMeasure 24 "Arial" "" == 0) by reflexivity.
  pose proof (calculateTextWidth_padded halfEmMeasure "Ann" 24 "Arial" Hn He) as H.
  simpl in H. destruct H as (H1 & _ & _ & _ & H5).
  split; [exact H1 | exact H5].
Defined.

(** ** Effective width *)





(** ** Frame of [updateField] *)

Lemma setWidth_id (field : TextField.t) (w : Q) :
  TextField.id (setWidth field w) = TextField.id field.
Proof. reflexivity. Qed.

Lemma generator_updateOne_id (measureText : Measure)
    (data : list CertificateData) (previewIndex : nat)
    (field : TextField.t) (updates : Patch.t) :
  Patch.id updates = None ->
  TextField.id (Generator.updateOne measureText data previewIndex field updates)
  = TextField.id field.
Proof.
  intros Hid. unfold Generator.updateOne.
  repeat match goal with
         | |- context [match ?e with _ => _ end] => destruct e
         end; simpl; rewrite ?Hid; reflexivity.
Qed.

Lemma designer_updateOne_id (measureText : Measure)
    (field : TextField.t) (updates : Patch.t) :
  Patch.id updates = None ->
  TextField.id (Designer.updateOne measureText field updates) = TextField.id field.
Proof.
  intros Hid. unfold Designer.updateOne.
  repeat match goal with
         | |- context [match ?e with _ => _ end] => destruct e
         end; simpl; rewrite ?Hid; reflexivity.
Qed.

Section MapById.
Variable id : string.
Variable change : TextField.t -> TextField.t.
Hypothesis change_id : forall f, TextField.id (change f) = TextField.id f.

Local Abbreviation step :=
  (fun field : TextField.t =>
     if String.eqb (TextField.id field) id then change field else field).

Lemma mapById_ids (fields : list TextField.t) :
  map TextField.id (map step fields) = map TextField.id fields.
Proof.
  induction fields as [|f fields IH]; simpl; [reflexivity|].
  rewrite IH. f_equal.
  destruct (String.eqb _ id); [apply change_id | reflexivity].
Qed.

Lemma mapById_other (fields : list TextField.t) (i : nat) (f : TextField.t) :
  fields !! i = Some f -> TextField.id f <> id -> map step fields !! i = Some f.
Proof.
  intros Hi Hne. rewrite list_lookup_fmap, Hi. simpl. f_equal.
  destruct (String.eqb_spec (TextField.id f) id); congruence.
Qed.

Lemma mapById_absent (fields : list TextField.t) :
  (forall f, f ∈ fields -> TextField.id f <> id) -> map step fields = fields.
Proof.
  induction fields as [|f fields IH]; intros Hall; simpl; [reflexivity|].
  rewrite IH.
  - f_equal.
    destruct (String.eqb_spec (TextField.id f) id) as [He|]; [|reflexivity].
    exfalso. apply (Hall f); [left | exact He].
  - intros g Hg. apply Hall. right. exact Hg.
Qed.
End MapById.

(** C10: with a patch that has no [id] key, [updateField] (of either
    component) keeps the length of the collection and the id at every
    position, leaves every field with another id as it is, and leaves the
    whole collection as it is when no field has the given id. *)
Theorem updateField_frame (measureText : Measure)
    (data : list CertificateData) (previewIndex : nat)
    (id : string) (updates : Patch.t) (fields : list TextField.t)
    (Hnoid : Patch.id updates = None) :
  let generator := Generator.updateField measureText data previewIndex id updates fields in
  let designer := Designer.updateField measureText id updates fields in
  (length generator = length fields /\ length designer = length fields)
  /\ (map TextField.id generator = map TextField.id fields
      /\ map TextField.id designer = map TextField.id fields)
  /\ (forall i f, fields !! i = Some f -> TextField.id f <> id ->
        generator !! i = Some f /\ designer !! i = Some f)
  /\ ((forall f, f ∈ fields -> TextField.id f <> id) ->
        generator = fields /\ designer = fields).
Proof.
  intros generator designer. subst generator designer.
  unfold Generator.updateField, Designer.updateField.
  pose proof (fun f => generator_updateOne_id measureText data previewIndex f updates Hnoid) as Hg.
  pose proof (fun f => designer_updateOne_id measureText f updates Hnoid) as Hd.
  repeat split.
  - apply length_map.
  - apply length_map.
  - apply (mapById_ids id _ Hg).
  - apply (mapById_ids id _ Hd).
  - apply (mapById_other id); assumption.
  - apply (mapById_other id); assumption.
  - apply (mapById_absent id); assumption.
  - apply (mapById_absent id); assumption.
Qed.

(** ** Text anchors *)

Lemma textOps_map (draw : TextField.t -> CanvasOp) (fields : list TextField.t) :
  (forall f, isFillText (draw f) = true) ->
  textOps (map draw fields) = map draw fields.
Proof.
  intros Hdraw. unfold textOps.
  induction fields as [|f fields IH]; simpl; [reflexivity|].
  rewrite Hdraw, IH. reflexivity.
Qed.

Lemma exportText_anchor (measureText : Measure) (row : CertificateData)
    (field : TextField.t) :
  Generator.exportText measureText row field
  = FillText (TextField.fontSize field) (TextField.fontFamily field)
      (TextField.color field) (TextField.align field)
      (cell row (TextField.label field))
      (Spec.anchorX field (Generator.getEffectiveWidth measureText field (Some row)))
      (Spec.anchorY field).
Proof.
  unfold Generator.exportText, Spec.anchorX, Spec.anchorY.
  destruct (TextField.align field); reflexivity.
Qed.

Lemma previewText_anchor (measureText : Measure) (row : CertificateData)
    (field : TextField.t) :
  Generator.previewText measureText row field
  = FillText (TextField.fontSize field) (TextField.fontFamily field)
      (TextField.color field) (TextField.align field)
      (cell row (TextField.label field))
      (Spec.anchorX field (Generator.getEffectiveWidth measureText field (Some row)))
      (Spec.anchorY field).
Proof.
  unfold Generator.previewText, Spec.anchorX, Spec.anchorY.
  destruct (TextField.align field); reflexivity.
Qed.

(** The specification's numbers: a field at x = 100 with effective width 50. *)
Lemma anchorX_example (field : TextField.t) :
  TextField.x field = 100 ->
  match TextField.align field with
  | AlignLeft => Spec.anchorX field 50 == 100
  | AlignCenter => Spec.anchorX field 50 == 125
  | AlignRight => Spec.anchorX field 50 == 150
  end.
Proof.
  intros Hx. unfold Spec.anchorX. rewrite Hx.
  destruct (TextField.align field); reflexivity.
Qed.

(** C2: the anchor handed to [fillText] is x (left), x + effectiveWidth/2
    (center) or x + effectiveWidth (right), and y + height/2 + fontSize/3,
    both in the export render and in the preview render; the two renders
    of the same row issue the same text draws. *)
Theorem anchor_parity (measureText : Measure) (template : Template)
    (data : list CertificateData) (previewIndex : nat)
    (editableFields : list TextField.t) (row : CertificateData)
    (Hrow : data !! previewIndex = Some row) :
  (forall field,
     let effectiveWidth := Generator.getEffectiveWidth measureText field (Some row) in
     let anchored :=
       FillText (TextField.fontSize field) (TextField.fontFamily field)
         (TextField.color field) (TextField.align field)
         (cell row (TextField.label field))
         (match TextField.align field with
          | AlignLeft => TextField.x field
          | AlignCenter => TextField.x field + effectiveWidth / 2
          | AlignRight => TextField.x field + effectiveWidth
          end)
         (TextField.y field + TextField.height field / 2
          + TextField.fontSize field / 3) in
     Generator.exportText measureText row field = anchored
     /\ Generator.previewText measureText row field = anchored)
  /\ exists blob shown,
       Generator.generateCertificateImage measureText template editableFields true row
       = Some blob
       /\ Generator.renderPreview measureText template data previewIndex
            editableFields true true = Generator.Painted shown
       /\ textOps (srf_ops blob) = map (Generator.exportText measureText row) editableFields
       /\ textOps (srf_ops shown) = textOps (srf_ops blob).
Proof.
  split.
  - intros field effectiveWidth anchored. subst anchored effectiveWidth.
    rewrite exportText_anchor, previewText_anchor. split; reflexivity.
  - unfold Generator.generateCertificateImage, Generator.renderPreview.
    rewrite Hrow. simpl. eexists. eexists.
    split; [reflexivity|]. split; [reflexivity|]. simpl.
    assert (He : forall f, isFillText (Generator.exportText measureText row f) = true).
    { intros f. rewrite exportText_anchor. reflexivity. }
    assert (Hp : forall f, isFillText (Generator.previewText measureText row f) = true).
    { intros f. rewrite previewText_anchor. reflexivity. }
    change (textOps (map (Generator.exportText measureText row) editableFields)
            = map (Generator.exportText measureText row) editableFields
            /\ textOps (map (Generator.previewText measureText row) editableFields)
               = textOps (map (Generator.exportText measureText row) editableFields)).
    rewrite !textOps_map by assumption. split; [reflexivity|].
    apply map_ext. intros f. rewrite exportText_anchor, previewText_anchor. reflexivity.
Qed.

Lemma anchor_parity_witness :
  Generator.exportText halfEmMeasure rowAnn (nameField false)
  = Generator.previewText halfEmMeasure rowAnn (nameField false).
Proof.
  assert (Hrow : [rowAnn] !! 0%nat = Some rowAnn) by reflexivity.
  destruct (anchor_parity halfEmMeasure template1000x600 [rowAnn] 0
              [nameField false] rowAnn Hrow) as [Hanchor _].
  destruct (Hanchor (nameField false)) as [He Hp].
  rewrite He, Hp. reflexivity.
Defined.
(** ** Dragging *)

Lemma clamp_bounds (limit margin v : Q) :
  0 <= margin -> 0 <= limit ->
  let c := Qmax 0 (Qmin (limit - margin) v) in
  0 <= c <= limit
  /\ (margin <= limit -> c <= limit - margin)
  /\ (v <= 0 -> c == 0)
  /\ (margin <= limit -> limit - margin <= v -> c == limit - margin)
  /\ (0 <= v <= limit - margin -> c == v).
Proof.
  intros Hm Hl c. subst c.
  destruct (Q.min_spec (limit - margin) v) as [[Hlt Emin]|[Hle Emin]];
    destruct (Q.max_spec 0 (Qmin (limit - margin) v)) as [[Hlt' Emax]|[Hle' Emax]];
    rewrite Emax; rewrite Emin in *; repeat split; intros; lra.
Qed.

Lemma relativePos_generator (canvas : Generator.Canvas) (e : MouseEvent) :
  let pointer := Generator.relativePos canvas e in
  let spec := Spec.toTemplateSpace (clientX e) (clientY e) (Generator.cv_rect canvas)
                (Generator.cv_width canvas) (Generator.cv_height canvas) in
  fst pointer == fst spec /\ snd pointer == snd spec.
Proof.
  unfold Generator.relativePos, Spec.toTemplateSpace. simpl.
  split; unfold Qdiv; ring.
Qed.

Lemma relativePos_designer (template : Template) (imageRect : DOMRect) (e : MouseEvent) :
  let pointer := Designer.relativePos template imageRect e in
  let spec := Spec.toTemplateSpace (clientX e) (clientY e) imageRect
                (tpl_width template) (tpl_height template) in
  fst pointer == fst spec /\ snd pointer == snd spec.
Proof.
  unfold Designer.relativePos, Spec.toTemplateSpace. simpl.
  split; unfold Qdiv; ring.
Qed.

Lemma generator_updateOne_position (measureText : Measure)
    (data : list CertificateData) (previewIndex : nat)
    (field : TextField.t) (nx ny : Q) :
  Generator.updateOne measureText data previewIndex field (positionPatch nx ny)
  = moveTo field nx ny.
Proof.
  unfold Generator.updateOne. simpl. rewrite andb_false_r. reflexivity.
Qed.

Lemma designer_updateOne_position (measureText : Measure)
    (field : TextField.t) (nx ny : Q) :
  Designer.updateOne measureText field (positionPatch nx ny) = moveTo field nx ny.
Proof.
  unfold Designer.updateOne. simpl. rewrite andb_false_r. reflexivity.
Qed.

Lemma generator_move (measureText : Measure) (template : Template)
    (data : list CertificateData) (previewIndex : nat)
    (st : Generator.State) (refs : Generator.Refs) (canvas : Generator.Canvas)
    (e : MouseEvent) (selected : string) :
  Generator.isDragging st = true ->
  Generator.selectedField st = Some selected -> selected <> "" ->
  Generator.containerRef refs = true ->
  Generator.canvasRef refs = Some canvas ->
  let drop := clampedDrop template (Generator.relativePos canvas e)
                (Generator.dragOffset st) in
  Generator.editableFields
    (Generator.handleMouseMove measureText template data previewIndex refs e st)
  = map (fun f => if String.eqb (TextField.id f) selected
                  then moveTo f (fst drop) (snd drop) else f)
      (Generator.editableFields st).
Proof.
  intros Hdrag Hsel Hne Hcont Hcanvas drop. subst drop.
  unfold Generator.handleMouseMove.
  rewrite Hdrag, Hsel, Hcont, Hcanvas. simpl.
  apply truthyString_true in Hne. rewrite Hne. simpl.
  destruct (Generator.relativePos canvas e) as [relativeX relativeY]. simpl.
  unfold Generator.updateField. apply map_ext. intros f.
  destruct (String.eqb (TextField.id f) selected); [|reflexivity].
  apply (generator_updateOne_position measureText data previewIndex f).
Qed.

Lemma designer_move (measureText : Measure) (template : Template)
    (st : Designer.State) (refs : Designer.Refs) (imageRect : DOMRect)
    (e : MouseEvent) (selected : string) :
  Designer.isDragging st = true ->
  Designer.selectedField st = Some selected -> selected <> "" ->
  Designer.containerRef refs = true ->
  Designer.imageRef refs = Some imageRect ->
  let drop := clampedDrop template (Designer.relativePos template imageRect e)
                (Designer.dragOffset st) in
  Designer.fields (Designer.handleMouseMove measureText template refs e st)
  = map (fun f => if String.eqb (TextField.id f) selected
                  then moveTo f (fst drop) (snd drop) else f)
      (Designer.fields st).
Proof.
  intros Hdrag Hsel Hne Hcont Himage drop. subst drop.
  unfold Designer.handleMouseMove.
  rewrite Hdrag, Hsel, Hcont, Himage. simpl.
  apply truthyString_true in Hne. rewrite Hne. simpl.
  destruct (Designer.relativePos template imageRect e) as [relativeX relativeY]. simpl.
  unfold Designer.updateField. apply map_ext. intros f.
  destruct (String.eqb (TextField.id f) selected); [|reflexivity].
  apply (designer_updateOne_position measureText f).
Qed.

Lemma clampedDrop_bounds (template : Template) (pointer offset : Q * Q) :
  0 <= tpl_width template -> 0 <= tpl_height template ->
  dropBounds template
    (fst pointer - fst offset, snd pointer - snd offset)
    (clampedDrop template pointer offset).
Proof.
  intros Hw Hh. unfold dropBounds, clampedDrop. simpl.
  assert (H50 : 0 <= 50) by discriminate.
  assert (H20 : 0 <= 20) by discriminate.
  destruct (clamp_bounds (tpl_width template) 50 (fst pointer - fst offset) H50 Hw)
    as (Hx & Hx1 & Hx2 & Hx3 & Hx4).
  destruct (clamp_bounds (tpl_height template) 20 (snd pointer - snd offset) H20 Hh)
    as (Hy & Hy1 & Hy2 & Hy3 & Hy4).
  repeat split; tauto.
Qed.



Example drag_far_right_and_above :
  let st' := Generator.handleMouseMove halfEmMeasure template1000x600 [rowAnn] 0
               generatorRefs farPointer generatorDragging in
  exists f, Generator.editableFields st' = [f]
            /\ TextField.x f == 950 /\ TextField.y f == 0.
Proof.
  vm_compute. eexists. split; [reflexivity|]. split; reflexivity.
Qed.

(** ** Coordinate transform *)

(** C5 (amended): for non-zero display and native sizes, the hit-box of a
    field that sits at the template-space position of a pointer is placed
    at the pointer's position relative to the origin of the display rect
    (p - rect.origin), not at p itself; the arithmetic is exact. *)
Theorem overlay_round_trip (measureText : Measure)
    (data : list CertificateData) (previewIndex : nat)
    (refs : Generator.Refs) (st : Generator.State) (canvas : Generator.Canvas)
    (e : MouseEvent) (i : nat) (field : TextField.t)
    (Hedit : Generator.isEditMode st = true)
    (Hcanvas : Generator.canvasRef refs = Some canvas)
    (Hnw : ~ Generator.cv_width canvas == 0)
    (Hnh : ~ Generator.cv_height canvas == 0)
    (Hdw : ~ rect_width (Generator.cv_rect canvas) == 0)
    (Hdh : ~ rect_height (Generator.cv_rect canvas) == 0)
    (Hfield : Generator.editableFields st !! i = Some field)
    (Hx : TextField.x field == fst (Generator.relativePos canvas e))
    (Hy : TextField.y field == snd (Generator.relativePos canvas e)) :
  exists boxes box,
    Generator.renderEditOverlay measureText data previewIndex refs st = Some boxes
    /\ boxes !! i = Some box
    /\ box_left box == clientX e - rect_left (Generator.cv_rect canvas)
    /\ box_top box == clientY e - rect_top (Generator.cv_rect canvas).
Proof.
  unfold Generator.renderEditOverlay. rewrite Hedit, Hcanvas. simpl.
  eexists. eexists. split; [reflexivity|].
  rewrite list_lookup_fmap, Hfield. simpl. split; [reflexivity|]. simpl.
  rewrite Hx, Hy. unfold Generator.relativePos. simpl.
  split; field; split; assumption.
Qed.

Lemma overlay_round_trip_witness :
  exists boxes box,
    Generator.renderEditOverlay halfEmMeasure [rowAnn] 0 generatorRefs generatorEditing
    = Some boxes
    /\ boxes !! 0%nat = Some box
    /\ box_left box == 110 - 10
    /\ box_top box == 70 - 20.
Proof.
  apply (overlay_round_trip halfEmMeasure [rowAnn] 0 generatorRefs generatorEditing
           halfSizeCanvas insidePointer 0
           (moveTo (nameField false)
              (fst (Generator.relativePos halfSizeCanvas insidePointer))
              (snd (Generator.relativePos halfSizeCanvas insidePointer))));
    try reflexivity; discriminate.
Defined.

(** C5 as stated fails: with the display rect at (10, 20) the pointer
    (110, 70) comes back as (100, 50). *)
Lemma overlay_round_trip_not_identity :
  exists box,
    Generator.renderEditOverlay halfEmMeasure [rowAnn] 0 generatorRefs generatorEditing
    = Some [box]
    /\ box_left box == 100 /\ box_top box == 50
    /\ ~ box_left box == clientX insidePointer
    /\ ~ box_top box == clientY insidePointer.
Proof.
  eexists. split; [reflexivity|]. simpl.
  repeat split; try reflexivity; discriminate.
Qed.

(** ** Batch export *)

Lemma replaceUnsafe_safe (s : string) : allSafe (replaceUnsafe s) = true.
Proof.
  induction s as [|c s IH]; simpl; [reflexivity|].
  rewrite IH, andb_true_r. destruct (safeChar c) eqn:E; [exact E | reflexivity].
Qed.

Lemma replaceUnsafe_length (s : string) :
  String.length (replaceUnsafe s) = String.length s.
Proof. induction s as [|c s IH]; simpl; congruence. Qed.

Lemma zipFile_fresh (name : string) (blob : Blob) (zip : Zip) :
  name ∉ map fst zip -> zipFile name blob zip = zip ++ [(name, blob)].
Proof.
  induction zip as [|[n b] zip IH]; simpl; intros Hfresh; [reflexivity|].
  destruct (String.eqb_spec n name) as [->|Hne].
  - exfalso. apply Hfresh. left.
  - rewrite IH; [reflexivity|]. intros Hin. apply Hfresh. right. exact Hin.
Qed.

Lemma zipFile_length (name : string) (blob : Blob) (zip : Zip) :
  (length zip <= length (zipFile name blob zip) <= S (length zip))%nat.
Proof.
  induction zip as [|[n b] zip IH]; simpl; [lia|].
  destruct (String.eqb n name); simpl; lia.
Qed.

Lemma fileAll_length (entries zip : Zip) :
  (length (fileAll zip entries) <= length zip + length entries)%nat.
Proof.
  revert zip. induction entries as [|[n b] entries IH]; intros zip; simpl; [lia|].
  unfold fileAll in *. simpl. etransitivity; [apply IH|].
  pose proof (zipFile_length n b zip). lia.
Qed.

Lemma fileAll_distinct (entries zip : Zip) :
  NoDup (map fst zip ++ map fst entries) -> fileAll zip entries = zip ++ entries.
Proof.
  revert zip. induction entries as [|[n b] entries IH]; intros zip Hnd; simpl.
  - rewrite app_nil_r. reflexivity.
  - unfold fileAll in *. simpl.
    assert (Hfresh : n ∉ map fst zip).
    { apply NoDup_app in Hnd as (_ & Hdisj & _). intros Hin.
      apply (Hdisj n Hin). left. }
    rewrite (zipFile_fresh n b zip Hfresh).
    rewrite IH.
    + rewrite <- app_assoc. reflexivity.
    + rewrite map_app. simpl. rewrite <- app_assoc. exact Hnd.
Qed.

Section ExportRun.
Variable measureText : Measure.
Variable template : Template.
Variable editableFields : list TextField.t.
Variable imageLoads : nat -> bool.

Local Abbreviation entries := (entriesFrom template measureText editableFields).
Local Abbreviation loop := (Generator.exportLoop measureText template editableFields imageLoads).

Lemma entriesFrom_length (rows : list CertificateData) (i : nat) :
  length (entries i rows) = length rows.
Proof. revert i. induction rows as [|r rows IH]; intros i; simpl; congruence. Qed.

Lemma entriesFrom_lookup (rows : list CertificateData) (i k : nat)
    (row : CertificateData) :
  rows !! k = Some row ->
  entries i rows !! k
  = Some (replaceUnsafe (Generator.fileNameOf editableFields (i + k) row) +:+ ".png",
          {| srf_width := tpl_width template;
             srf_height := tpl_height template;
             srf_ops :=
               DrawImage (tpl_url template) 0 0 (tpl_width template) (tpl_height template)
               :: map (Generator.exportText measureText row) editableFields |}).
Proof.
  revert i k. induction rows as [|r rows IH]; intros i k Hk; [discriminate|].
  destruct k as [|k]; simpl in *.
  - injection Hk as ->. rewrite Nat.add_0_r. reflexivity.
  - rewrite (IH (S i) k Hk). rewrite Nat.add_succ_r. reflexivity.
Qed.

(** Every image loads: the loop runs to its end. *)
Lemma exportLoop_completes (rows : list CertificateData) (i : nat)
    (st : Generator.ExportState) :
  (forall k, (i <= k < i + length rows)%nat -> imageLoads k = true) ->
  loop rows i st
  = {| Generator.isGenerating := false;
       Generator.generatedCount :=
         match rows with
         | [] => Generator.generatedCount st
         | _ :: _ => (i + length rows)%nat
         end;
       Generator.zip := fileAll (Generator.zip st) (entries i rows);
       Generator.saved := Some (fileAll (Generator.zip st) (entries i rows)) |}.
Proof.
  revert i st. induction rows as [|r rows IH]; intros i st Hloads; simpl.
  - reflexivity.
  - unfold Generator.generateCertificateImage.
    rewrite (Hloads i) by (simpl; lia).
    rewrite IH by (intros k Hk; apply Hloads; simpl; lia).
    simpl. f_equal.
    destruct rows; simpl; lia.
Qed.

(** The image of row [i + length before] does not load: the loop rests
    there. *)
Lemma exportLoop_rests (before after : list CertificateData)
    (row : CertificateData) (i : nat) (st : Generator.ExportState) :
  (forall k, (i <= k < i + length before)%nat -> imageLoads k = true) ->
  imageLoads (i + length before)%nat = false ->
  loop (before ++ row :: after) i st
  = {| Generator.isGenerating := Generator.isGenerating st;
       Generator.generatedCount :=
         match before with
         | [] => Generator.generatedCount st
         | _ :: _ => (i + length before)%nat
         end;
       Generator.zip := fileAll (Generator.zip st) (entries i before);
       Generator.saved := Generator.saved st |}.
Proof.
  revert i st. induction before as [|r before IH]; intros i st Hloads Hfail; simpl.
  - unfold Generator.generateCertificateImage.
    rewrite Nat.add_0_r in Hfail. rewrite Hfail. destruct st; reflexivity.
  - unfold Generator.generateCertificateImage.
    rewrite (Hloads i) by (simpl; lia).
    rewrite IH.
    + simpl. f_equal. destruct before; simpl; lia.
    + intros k Hk. apply Hloads. simpl. lia.
    + simpl in Hfail. rewrite Nat.add_succ_r in Hfail. exact Hfail.
Qed.
End ExportRun.

(** The file name of a row: the value the row binds to the first field's
    label if there is one and it is not empty, else the ordinal name. *)
Lemma fileNameOf_cases (first : TextField.t) (others : list TextField.t)
    (i : nat) (row : CertificateData) :
  Generator.fileNameOf (first :: others) i row
  = match row !! TextField.label first with
    | Some value => if String.eqb value "" then "certificate-" +:+ pretty (i + 1)%nat
                    else value
    | None => "certificate-" +:+ pretty (i + 1)%nat
    end.
Proof.
  unfold Generator.fileNameOf, cell.
  destruct (row !! TextField.label first) as [value|]; simpl; [|reflexivity].
  unfold truthyString. destruct (String.eqb_spec value ""); simpl; [reflexivity|].
  destruct (String.eqb_spec value ""); simpl; congruence.
Qed.




(** C8 (amended): exporting the two rows Ann and Beatrice Montgomery over
    the 1000 x 600 template with the single centred 300-wide field gives an
    archive of exactly two entries, each rendered at 1000 x 600, and both
    values are anchored at x = 250, y = 128 (100 + 40/2 + 24/3). *)
Theorem end_to_end_example (measureText : Measure) (id fontFamily color : string) :
  let run := Generator.generateAllCertificates measureText template1000x600
               [rowAnn; rowBeatrice] [exampleField id fontFamily color]
               (fun _ => true) in
  exists ann beatrice x1 y1 x2 y2,
    Generator.saved run
    = Some [("Ann.png", ann); ("Beatrice_Montgomery.png", beatrice)]
    /\ (srf_width ann = 1000 /\ srf_height ann = 600)
    /\ (srf_width beatrice = 1000 /\ srf_height beatrice = 600)
    /\ textOps (srf_ops ann)
       = [FillText 24 fontFamily color AlignCenter "Ann" x1 y1]
    /\ textOps (srf_ops beatrice)
       = [FillText 24 fontFamily color AlignCenter "Beatrice Montgomery" x2 y2]
    /\ (x1 == 250 /\ y1 == 128)
    /\ (x2 == 250 /\ y2 == 128).
Proof.
  vm_compute. do 6 eexists.
  split; [reflexivity|]. repeat split; reflexivity.
Qed.

(** C8 as stated fails: the text of the first entry is anchored at
    y = 128, not at y = 108. *)
Lemma end_to_end_anchor_not_108 :
  exists ann rest x y,
    Generator.saved
      (Generator.generateAllCertificates halfEmMeasure template1000x600
         [rowAnn; rowBeatrice] [exampleField "field-1" "Arial" "#000000"]
         (fun _ => true))
    = Some (("Ann.png", ann) :: rest)
    /\ textOps (srf_ops ann) = [FillText 24 "Arial" "#000000" AlignCenter "Ann" x y]
    /\ x == 250 /\ y == 128 /\ ~ y == 108.
Proof.
  vm_compute. do 4 eexists.
  split; [reflexivity|]. split; [reflexivity|].
  split; [reflexivity|]. split; [reflexivity|]. discriminate.
Qed.




Lemma updateField_frame_witness :
  Generator.updateField halfEmMeasure [rowAnn] 0 "field-1" (positionPatch 5 6)
    [nameField false; exampleField "field-2" "Arial" "#000000"] !! 1%nat
  = Some (exampleField "field-2" "Arial" "#000000")
  /\ Designer.updateField halfEmMeasure "field-1" (positionPatch 5 6)
       [nameField false; exampleField "field-2" "Arial" "#000000"] !! 1%nat
     = Some (exampleField "field-2" "Arial" "#000000").
Proof.
  destruct (updateField_frame halfEmMeasure [rowAnn] 0 "field-1" (positionPatch 5 6)
              [nameField false; exampleField "field-2" "Arial" "#000000"] eq_refl)
    as (_ & _ & Hother & _).
  apply (Hother 1%nat (exampleField "field-2" "Arial" "#000000") eq_refl).
  discriminate.
Defined.

(** ** Recomputation of the stored width *)

Lemma setWidth_twice (field : TextField.t) (w w' : Q) :
  setWidth (setWidth field w) w' = setWidth field w'.
Proof. reflexivity. Qed.

Lemma designer_updateOne_recomputes (measureText : Measure)
    (field : TextField.t) (updates : Patch.t) :
  let merged := spread field updates in
  Patch.autoWidth updates = Some true
  \/ (TextField.autoWidth merged = true
      /\ (truthyKey truthyNumber (Patch.fontSize updates)
          || truthyKey truthyString (Patch.fontFamily updates)
          || truthyKey truthyString (Patch.label updates)) = true) ->
  Designer.updateOne measureText field updates
  = setWidth merged
      (calculateTextWidth measureText (Designer.getDummyText (TextField.label merged))
         (TextField.fontSize merged) (TextField.fontFamily merged)).
Proof.
  intros merged Htrig. unfold Designer.updateOne. fold merged.
  destruct Htrig as [Hon | [Hauto Htouch]].
  - rewrite Hon. cbn [TextField.autoWidth setWidth TextField.label
                      TextField.fontSize TextField.fontFamily].
    destruct (_ && _); [apply setWidth_twice | reflexivity].
  - rewrite Htouch.
    destruct (Patch.autoWidth updates) as [[|]|];
      cbn [TextField.autoWidth setWidth TextField.label
           TextField.fontSize TextField.fontFamily];
      rewrite Hauto; reflexivity.
Qed.

Lemma generator_updateOne_recomputes (measureText : Measure)
    (data : list CertificateData) (previewIndex : nat)
    (field : TextField.t) (updates : Patch.t) (row : CertificateData) :
  let merged := spread field updates in
  Patch.autoWidth updates = Some true
  \/ (TextField.autoWidth merged = true
      /\ (truthyKey truthyNumber (Patch.fontSize updates)
          || truthyKey truthyString (Patch.fontFamily updates)
          || truthyKey truthyString (Patch.label updates)) = true) ->
  data !! previewIndex = Some row ->
  cell row (TextField.label merged) <> "" ->
  Generator.updateOne measureText data previewIndex field updates
  = setWidth merged
      (calculateTextWidth measureText (cell row (TextField.label merged))
         (TextField.fontSize merged) (TextField.fontFamily merged)).
Proof.
  intros merged Htrig Hrow Htext. unfold Generator.updateOne. fold merged.
  apply truthyString_true in Htext. rewrite Hrow.
  destruct Htrig as [Hon | [Hauto Htouch]].
  - rewrite Hon, Htext.
    cbn [TextField.autoWidth setWidth TextField.label
         TextField.fontSize TextField.fontFamily].
    rewrite Htext. destruct (_ && _); reflexivity.
  - rewrite Htouch, Htext.
    destruct (Patch.autoWidth updates) as [[|]|];
      cbn [TextField.autoWidth setWidth TextField.label
           TextField.fontSize TextField.fontFamily];
      rewrite Hauto, ?Htext; reflexivity.
Qed.

Lemma generator_updateOne_guarded (measureText : Measure)
    (data : list CertificateData) (previewIndex : nat)
    (field : TextField.t) (updates : Patch.t) :
  let merged := spread field updates in
  (data !! previewIndex = None
   \/ exists row, data !! previewIndex = Some row
                  /\ cell row (TextField.label merged) = "") ->
  Generator.updateOne measureText data previewIndex field updates = merged.
Proof.
  intros merged Hguard. unfold Generator.updateOne. fold merged.
  destruct Hguard as [Hnone | (row & Hrow & Htext)].
  - rewrite Hnone.
    destruct (Patch.autoWidth updates) as [[|]|]; destruct (_ && _); reflexivity.
  - rewrite Hrow. apply truthyString_false in Htext.
    destruct (Patch.autoWidth updates) as [[|]|]; cbv zeta; rewrite ?Htext;
      destruct (_ && _); rewrite ?Htext; reflexivity.
Qed.




(** ** The model on small inputs *)

Example getDummyText_samples :
  Designer.getDummyText "Full NAME" = "John Smith"
  /\ Designer.getDummyText "Issue date" = "2024-01-15"
  /\ Designer.getDummyText "" = "Sample Text".
Proof. repeat split; reflexivity. Qed.

Example replaceUnsafe_samples :
  replaceUnsafe "Beatrice Montgomery" = "Beatrice_Montgomery"
  /\ replaceUnsafe "a-b_c.d/e" = "a-b_c_d_e"
  /\ Generator.fileNameOf [nameField false] 2 rowBlank = "certificate-3"
  /\ Generator.fileNameOf [] 0 rowAnn = "certificate-1".
Proof. repeat split; vm_compute; reflexivity. Qed.

Example designer_font_size_change :
  Designer.updateField halfEmMeasure "field-1" fontSize48 [nameField true]
  = [setWidth (spread (nameField true) fontSize48)
       (calculateTextWidth halfEmMeasure "John Smith" 48 "Arial")].
Proof. reflexivity. Qed.

Example generator_mouse_up_ends_drag :
  Generator.isDragging (Generator.handleMouseUp generatorDragging) = false
  /\ Designer.isDragging (Designer.handleMouseUp designerDragging) = false.
Proof. split; reflexivity. Qed.

(** * Further properties of the components *)

(** ** Dragging: press, move, release *)

Lemma clamp_in_range (limit v t : Q) :
  v == t -> 0 <= t <= limit -> Qmax 0 (Qmin limit v) == t.
Proof.
  intros Hv Ht.
  destruct (Q.min_spec limit v) as [[Hlt Emin]|[Hle Emin]];
    destruct (Q.max_spec 0 (Qmin limit v)) as [[Hlt' Emax]|[Hle' Emax]];
    rewrite Emax; rewrite Emin in *; lra.
Qed.

Lemma generator_press_then_move (measureText : Measure) (template : Template)
    (data : list CertificateData) (previewIndex : nat)
    (refs : Generator.Refs) (canvas : Generator.Canvas) (st : Generator.State)
    (fieldId : string) (field : TextField.t) (e0 e1 : MouseEvent) :
  Generator.isEditMode st = true ->
  Generator.containerRef refs = true ->
  Generator.canvasRef refs = Some canvas ->
  fieldId <> "" ->
  List.find (fun f => String.eqb (TextField.id f) fieldId) (Generator.editableFields st)
  = Some field ->
  let offset := (fst (Generator.relativePos canvas e0) - TextField.x field,
                 snd (Generator.relativePos canvas e0) - TextField.y field) in
  let drop := clampedDrop template (Generator.relativePos canvas e1) offset in
  Generator.editableFields
    (Generator.handleMouseMove measureText template data previewIndex refs e1
       (Generator.handleMouseDown refs e0 fieldId st))
  = map (fun f => if String.eqb (TextField.id f) fieldId
                  then moveTo f (fst drop) (snd drop) else f)
      (Generator.editableFields st).
Proof.
  intros Hedit Hcont Hcanvas Hne Hfind offset drop.
  assert (Hdown : Generator.handleMouseDown refs e0 fieldId st
                  = {| Generator.editableFields := Generator.editableFields st;
                       Generator.selectedField := Some fieldId;
                       Generator.isDragging := true;
                       Generator.dragOffset := offset;
                       Generator.isEditMode := Generator.isEditMode st |}).
  { unfold Generator.handleMouseDown. rewrite Hedit, Hfind, Hcont, Hcanvas.
    subst offset. destruct (Generator.relativePos canvas e0). reflexivity. }
  rewrite Hdown.
  exact (generator_move measureText template data previewIndex
           {| Generator.editableFields := Generator.editableFields st;
              Generator.selectedField := Some fieldId;
              Generator.isDragging := true;
              Generator.dragOffset := offset;
              Generator.isEditMode := Generator.isEditMode st |}
           refs canvas e1 fieldId eq_refl eq_refl Hne Hcont Hcanvas).
Qed.

Lemma designer_press_then_move (measureText : Measure) (template : Template)
    (refs : Designer.Refs) (imageRect : DOMRect) (st : Designer.State)
    (fieldId : string) (field : TextField.t) (e0 e1 : MouseEvent) :
  Designer.containerRef refs = true ->
  Designer.imageRef refs = Some imageRect ->
  fieldId <> "" ->
  List.find (fun f => String.eqb (TextField.id f) fieldId) (Designer.fields st)
  = Some field ->
  let offset := (fst (Designer.relativePos template imageRect e0) - TextField.x field,
                 snd (Designer.relativePos template imageRect e0) - TextField.y field) in
  let drop := clampedDrop template (Designer.relativePos template imageRect e1) offset in
  Designer.fields
    (Designer.handleMouseMove measureText template refs e1
       (Designer.handleMouseDown template refs e0 fieldId st))
  = map (fun f => if String.eqb (TextField.id f) fieldId
                  then moveTo f (fst drop) (snd drop) else f)
      (Designer.fields st).
Proof.
  intros Hcont Himage Hne Hfind offset drop.
  assert (Hdown : Designer.handleMouseDown template refs e0 fieldId st
                  = {| Designer.fields := Designer.fields st;
                       Designer.selectedField := Some fieldId;
                       Designer.isDragging := true;
                       Designer.dragOffset := offset |}).
  { unfold Designer.handleMouseDown. rewrite Hfind, Hcont, Himage.
    subst offset. destruct (Designer.relativePos template imageRect e0). reflexivity. }
  rewrite Hdown.
  exact (designer_move measureText template
           {| Designer.fields := Designer.fields st;
              Designer.selectedField := Some fieldId;
              Designer.isDragging := true;
              Designer.dragOffset := offset |}
           refs imageRect e1 fieldId eq_refl eq_refl Hne Hcont Himage).
Qed.





Lemma generator_move_idle (measureText : Measure) (template : Template)
    (data : list CertificateData) (previewIndex : nat)
    (refs : Generator.Refs) (e : MouseEvent) (st : Generator.State) :
  Generator.isDragging st = false ->
  Generator.handleMouseMove measureText template data previewIndex refs e st = st.
Proof. intros H. unfold Generator.handleMouseMove. rewrite H. reflexivity. Qed.

Lemma designer_move_idle (measureText : Measure) (template : Template)
    (refs : Designer.Refs) (e : MouseEvent) (st : Designer.State) :
  Designer.isDragging st = false ->
  Designer.handleMouseMove measureText template refs e st = st.
Proof. intros H. unfold Designer.handleMouseMove. rewrite H. reflexivity. Qed.

Lemma generator_up_idle (st : Generator.State) :
  Generator.isDragging st = false -> Generator.handleMouseUp st = st.
Proof. destruct st. simpl. intros ->. reflexivity. Qed.

Lemma designer_up_idle (st : Designer.State) :
  Designer.isDragging st = false -> Designer.handleMouseUp st = st.
Proof. destruct st. simpl. intros ->. reflexivity. Qed.

(** X3: while the generator is not in edit mode and no drag is in
    progress, no sequence of pointer events (press on any hit-box, move,
    release, leave) changes its state: fields cannot be moved or selected
    by the pointer outside edit mode. *)
Theorem generator_view_mode_inert (measureText : Measure) (template : Template)
    (data : list CertificateData) (previewIndex : nat)
    (refs : Generator.Refs) (st : Generator.State) (events : list PointerEvent)
    (Hview : Generator.isEditMode st = false)
    (Hidle : Generator.isDragging st = false) :
  foldl (generatorPointer measureText template data previewIndex refs) st events = st.
Proof.
  induction events as [|event events IH]; simpl; [reflexivity|].
  assert (Hstep : generatorPointer measureText template data previewIndex refs st event = st).
  { destruct event; simpl.
    - unfold Generator.handleMouseDown. rewrite Hview. reflexivity.
    - apply generator_move_idle. exact Hidle.
    - apply generator_up_idle. exact Hidle.
    - apply generator_up_idle. exact Hidle. }
  rewrite Hstep. exact IH.
Qed.

Lemma generator_view_mode_inert_witness :
  foldl (generatorPointer halfEmMeasure template1000x600 [rowAnn] 0 generatorRefs)
    (Generator.initialState [nameField false])
    [MouseDown "field-1" insidePointer; MouseMove farCorner; MouseUp]
  = Generator.initialState [nameField false].
Proof.
  apply (generator_view_mode_inert halfEmMeasure template1000x600 [rowAnn] 0
           generatorRefs (Generator.initialState [nameField false])
           [MouseDown "field-1" insidePointer; MouseMove farCorner; MouseUp]);
    reflexivity.
Defined.

(** X4: after a release (mouse up, or the pointer leaving the container)
    no drag is pending: in both components every following event that is
    not a press leaves the state as the release left it. *)
Theorem release_ends_drag (measureText : Measure) (template : Template)
    (data : list CertificateData) (previewIndex : nat)
    (grefs : Generator.Refs) (drefs : Designer.Refs)
    (events : list PointerEvent)
    (Hnopress : forall event, event ∈ events -> isMouseDown event = false) :
  (forall st : Generator.State,
     foldl (generatorPointer measureText template data previewIndex grefs)
       (Generator.handleMouseUp st) events
     = Generator.handleMouseUp st)
  /\ (forall st : Designer.State,
        foldl (designerPointer measureText template drefs)
          (Designer.handleMouseUp st) events
        = Designer.handleMouseUp st).
Proof.
  induction events as [|event events IH]; simpl; [split; reflexivity|].
  assert (Hevent : isMouseDown event = false) by (apply Hnopress; left).
  destruct IH as [IHg IHd]; [intros ev Hev; apply Hnopress; right; exact Hev|].
  split; intros st.
  - assert (Hstep : generatorPointer measureText template data previewIndex
                      grefs (Generator.handleMouseUp st) event
                    = Generator.handleMouseUp st).
    { destruct event; simpl in *; [discriminate | | |]; reflexivity. }
    rewrite Hstep. apply IHg.
  - assert (Hstep : designerPointer measureText template drefs
                      (Designer.handleMouseUp st) event
                    = Designer.handleMouseUp st).
    { destruct event; simpl in *; [discriminate | | |]; reflexivity. }
    rewrite Hstep. apply IHd.
Qed.

Lemma release_ends_drag_witness :
  foldl (generatorPointer halfEmMeasure template1000x600 [rowAnn] 0 generatorRefs)
    (Generator.handleMouseUp generatorDragging)
    [MouseMove farPointer; MouseLeave; MouseMove insidePointer]
  = Generator.handleMouseUp generatorDragging.
Proof.
  apply (release_ends_drag halfEmMeasure template1000x600 [rowAnn] 0
           generatorRefs designerRefs
           [MouseMove farPointer; MouseLeave; MouseMove insidePointer]).
  intros event Hin. apply list_elem_of_In in Hin. simpl in Hin.
  destruct Hin as [<-|[<-|[<-|[]]]]; reflexivity.
Defined.

(** ** Hit-boxes *)

Lemma scale_le_l (a d num den : Q) :
  0 < num -> 0 < den -> (a * (num / den) <= d <-> a <= d * (den / num)).
Proof.
  intros Hn Hd.
  assert (Hpos : 0 < den / num) by (apply Qlt_shift_div_l; [assumption | lra]).
  assert (Hpos' : 0 < num / den) by (apply Qlt_shift_div_l; [assumption | lra]).
  split; intros H.
  - assert (E : a == a * (num / den) * (den / num)) by (field; split; lra).
    rewrite E. apply Qmult_le_compat_r; [exact H | lra].
  - assert (E : d == d * (den / num) * (num / den)) by (field; split; lra).
    rewrite E. apply Qmult_le_compat_r; [exact H | lra].
Qed.

Lemma scale_le_r (b d num den : Q) :
  0 < num -> 0 < den -> (d <= b * (num / den) <-> d * (den / num) <= b).
Proof.
  intros Hn Hd.
  assert (Hpos : 0 < den / num) by (apply Qlt_shift_div_l; [assumption | lra]).
  assert (Hpos' : 0 < num / den) by (apply Qlt_shift_div_l; [assumption | lra]).
  split; intros H.
  - assert (E : b == b * (num / den) * (den / num)) by (field; split; lra).
    rewrite E. apply Qmult_le_compat_r; [exact H | lra].
  - assert (E : d == d * (den / num) * (num / den)) by (field; split; lra).
    rewrite E. apply Qmult_le_compat_r; [exact H | lra].
Qed.

(** X5: in edit mode the generator draws one hit-box per field, and for
    positive native and display sizes a pointer lies inside a field's
    hit-box (measured from the canvas's top-left corner) exactly when its
    template-space position, as the mouse handlers compute it, lies inside
    the field's rectangle of effective width and height. *)
Theorem hit_box_matches_field (measureText : Measure)
    (data : list CertificateData) (previewIndex : nat)
    (refs : Generator.Refs) (st : Generator.State) (canvas : Generator.Canvas)
    (Hedit : Generator.isEditMode st = true)
    (Hcanvas : Generator.canvasRef refs = Some canvas)
    (Hnw : 0 < Generator.cv_width canvas)
    (Hnh : 0 < Generator.cv_height canvas)
    (Hdw : 0 < rect_width (Generator.cv_rect canvas))
    (Hdh : 0 < rect_height (Generator.cv_rect canvas)) :
  exists boxes,
    Generator.renderEditOverlay measureText data previewIndex refs st = Some boxes
    /\ length boxes = length (Generator.editableFields st)
    /\ forall i field, Generator.editableFields st !! i = Some field ->
         exists box,
           boxes !! i = Some box
           /\ forall e,
                let dx := clientX e - rect_left (Generator.cv_rect canvas) in
                let dy := clientY e - rect_top (Generator.cv_rect canvas) in
                let p := Generator.relativePos canvas e in
                let effectiveWidth :=
                  Generator.getEffectiveWidth measureText field (data !! previewIndex) in
                (box_left box <= dx <= box_left box + box_width box
                 <-> TextField.x field <= fst p <= TextField.x field + effectiveWidth)
                /\ (box_top box <= dy <= box_top box + box_height box
                    <-> TextField.y field <= snd p
                                          <= TextField.y field + TextField.height field).
Proof.
  unfold Generator.renderEditOverlay. rewrite Hedit, Hcanvas. simpl.
  eexists. split; [reflexivity|]. split; [apply length_map|].
  intros i field Hi. rewrite list_lookup_fmap, Hi. simpl.
  eexists. split; [reflexivity|]. intros e. simpl.
  set (ew := Generator.getEffectiveWidth measureText field (data !! previewIndex)).
  set (rect := Generator.cv_rect canvas) in *.
  split.
  - rewrite <- Qmult_plus_distr_l.
    rewrite (scale_le_l (TextField.x field) _ _ _ Hdw Hnw).
    rewrite (scale_le_r (TextField.x field + ew) _ _ _ Hdw Hnw).
    reflexivity.
  - rewrite <- Qmult_plus_distr_l.
    rewrite (scale_le_l (TextField.y field) _ _ _ Hdh Hnh).
    rewrite (scale_le_r (TextField.y field + TextField.height field) _ _ _ Hdh Hnh).
    reflexivity.
Qed.

Lemma hit_box_matches_field_witness :
  exists boxes,
    Generator.renderEditOverlay halfEmMeasure [rowAnn] 0 generatorRefs generatorEditing
    = Some boxes
    /\ length boxes = 1%nat.
Proof.
  destruct (hit_box_matches_field halfEmMeasure [rowAnn] 0 generatorRefs
              generatorEditing halfSizeCanvas eq_refl eq_refl)
    as (boxes & Hboxes & Hlen & _); try reflexivity.
  exists boxes. split; [exact Hboxes | exact Hlen].
Defined.

(** ** Auto-width *)

(** X6: a field with auto-width on whose cell is not empty is drawn so
    that the text, of measured width m, stays inside the field's box of
    effective width with the padding to spare: anchored left it starts at
    x and ends at least 20 before the right edge; centred it keeps at
    least 10 on either side; anchored right it ends at the right edge and
    starts at least 20 after x. *)
Theorem auto_width_text_fits (measureText : Measure) (row : CertificateData)
    (field : TextField.t)
    (Hauto : TextField.autoWidth field = true)
    (Htext : cell row (TextField.label field) <> "") :
  let text := cell row (TextField.label field) in
  let m := measureText (TextField.fontSize field) (TextField.fontFamily field) text in
  let effectiveWidth := Generator.getEffectiveWidth measureText field (Some row) in
  exists ax ay,
    Generator.exportText measureText row field
    = FillText (TextField.fontSize field) (TextField.fontFamily field)
        (TextField.color field) (TextField.align field) text ax ay
    /\ m + 20 <= effectiveWidth < m + 21
    /\ match TextField.align field with
       | AlignLeft =>
           ax == TextField.x field
           /\ ax + m + 20 <= TextField.x field + effectiveWidth
       | AlignCenter =>
           TextField.x field + 10 <= ax - m / 2
           /\ ax + m / 2 + 10 <= TextField.x field + effectiveWidth
       | AlignRight =>
           TextField.x field + 20 <= ax - m
           /\ ax == TextField.x field + effectiveWidth
       end.
Proof.
  intros text m effectiveWidth.
  rewrite exportText_anchor. eexists. eexists. split; [reflexivity|].
  assert (Hew : effectiveWidth = inject_Z (Qceiling m) + 20).
  { subst effectiveWidth. unfold Generator.getEffectiveWidth. rewrite Hauto.
    apply truthyString_true in Htext. fold text in Htext |- *. rewrite Htext.
    reflexivity. }
  pose proof (Qle_ceiling m) as Hup.
  pose proof (Qceiling_lt m) as Hlow.
  unfold Z.sub in Hlow. rewrite inject_Z_plus, inject_Z_opp in Hlow.
  change (inject_Z 1) with 1 in Hlow.
  fold effectiveWidth. rewrite Hew. unfold Spec.anchorX.
  generalize dependent (inject_Z (Qceiling m)). intros c _ Hup Hlow.
  split; [lra|].
  destruct (TextField.align field); split; try reflexivity;
    unfold Qdiv; change (/ 2) with (1 # 2); lra.
Qed.

Lemma auto_width_text_fits_witness :
  exists ax ay,
    Generator.exportText halfEmMeasure rowAnn (nameField true)
    = FillText 24 "Arial" "#000000" AlignCenter "Ann" ax ay
    /\ 100 + 10 <= ax - halfEmMeasure 24 "Arial" "Ann" / 2.
Proof.
  assert (Htext : cell rowAnn (TextField.label (nameField true)) <> "")
    by (vm_compute; discriminate).
  destruct (auto_width_text_fits halfEmMeasure rowAnn (nameField true) eq_refl Htext)
    as (ax & ay & Hop & _ & Hfit & _).
  exists ax, ay. split; [exact Hop | exact Hfit].
Defined.

Lemma designer_updateOne_untouched (measureText : Measure)
    (field : TextField.t) (updates : Patch.t) :
  Patch.autoWidth updates <> Some true ->
  TextField.autoWidth (spread field updates)
  && (truthyKey truthyNumber (Patch.fontSize updates)
      || truthyKey truthyString (Patch.fontFamily updates)
      || truthyKey truthyString (Patch.label updates)) = false ->
  Designer.updateOne measureText field updates = spread field updates.
Proof.
  intros Hoff Hquiet. unfold Designer.updateOne.
  destruct (Patch.autoWidth updates) as [[|]|] eqn:E; try congruence;
    cbv zeta; rewrite Hquiet; reflexivity.
Qed.

Lemma absentOrTruthy_quiet {A} (truthy : A -> bool) (o : option A) :
  absentOrTruthy truthy o = true -> truthyKey truthy o = false -> o = None.
Proof. destruct o; simpl; intros; congruence. Qed.

Lemma designer_updateOne_keeps_width_current (measureText : Measure)
    (field : TextField.t) (updates : Patch.t) :
  panelPatch updates = true ->
  storedWidthCurrent measureText field ->
  storedWidthCurrent measureText (Designer.updateOne measureText field updates).
Proof.
  intros Hpanel Hcurrent. unfold storedWidthCurrent in *.
  set (touch := truthyKey truthyNumber (Patch.fontSize updates)
                || truthyKey truthyString (Patch.fontFamily updates)
                || truthyKey truthyString (Patch.label updates)).
  destruct (Patch.autoWidth updates) as [[|]|] eqn:Eauto.
  - rewrite designer_updateOne_recomputes by (left; exact Eauto).
    unfold Designer.getEffectiveWidth. simpl. rewrite Eauto. reflexivity.
  - rewrite designer_updateOne_untouched; [|congruence|].
    + unfold Designer.getEffectiveWidth. simpl. rewrite Eauto. reflexivity.
    + simpl. rewrite Eauto. reflexivity.
  - destruct (TextField.autoWidth (spread field updates) && touch) eqn:Etrig.
    + apply andb_true_iff in Etrig as [Hon Htouch].
      rewrite designer_updateOne_recomputes by (right; split; assumption).
      unfold Designer.getEffectiveWidth.
      cbn [TextField.autoWidth setWidth TextField.label TextField.fontSize
           TextField.fontFamily TextField.width].
      rewrite Hon. reflexivity.
    + rewrite designer_updateOne_untouched; [|congruence|exact Etrig].
      destruct (TextField.autoWidth (spread field updates)) eqn:Hon.
      * simpl in Etrig. subst touch.
        apply orb_false_iff in Etrig as [Etrig Hlabel].
        apply orb_false_iff in Etrig as [Hsize Hfamily].
        unfold panelPatch in Hpanel.
        apply andb_true_iff in Hpanel as [Hpanel Hwidth].
        apply andb_true_iff in Hpanel as [Hpanel Hfamily'].
        apply andb_true_iff in Hpanel as [Hlabel' Hsize'].
        apply absentOrTruthy_quiet in Hlabel'; [|exact Hlabel].
        apply absentOrTruthy_quiet in Hsize'; [|exact Hsize].
        apply absentOrTruthy_quiet in Hfamily'; [|exact Hfamily].
        assert (Hw : Patch.width updates = None).
        { destruct (Patch.width updates); [|reflexivity].
          rewrite Eauto in Hwidth. discriminate. }
        simpl in Hon. rewrite Eauto in Hon. simpl in Hon.
        unfold Designer.getEffectiveWidth in *. simpl.
        rewrite Eauto, Hlabel', Hsize', Hfamily', Hw. simpl.
        rewrite Hon in *. exact Hcurrent.
      * unfold Designer.getEffectiveWidth. rewrite Hon. reflexivity.
Qed.

Lemma positionPatch_panel (nx ny : Q) : panelPatch (positionPatch nx ny) = true.
Proof. reflexivity. Qed.

Lemma designer_updateField_keeps_width_current (measureText : Measure)
    (id : string) (updates : Patch.t) (fields : list TextField.t) :
  panelPatch updates = true ->
  Forall (storedWidthCurrent measureText) fields ->
  Forall (storedWidthCurrent measureText)
    (Designer.updateField measureText id updates fields).
Proof.
  intros Hpanel Hall. unfold Designer.updateField.
  induction Hall as [|f fields Hf Hall IH]; simpl; constructor; [|exact IH].
  destruct (String.eqb (TextField.id f) id); [|exact Hf].
  apply designer_updateOne_keeps_width_current; assumption.
Qed.

Lemma designerStep_keeps_width_current (measureText : Measure) (template : Template)
    (refs : Designer.Refs) (st : Designer.State) (action : DesignerAction) :
  panelAction action = true ->
  Forall (storedWidthCurrent measureText) (Designer.fields st) ->
  Forall (storedWidthCurrent measureText)
    (Designer.fields (designerStep measureText template refs st action)).
Proof.
  intros Hpanel Hall. destruct action as [now|id|id updates|event]; simpl.
  - apply Forall_app. split; [exact Hall|]. constructor; [reflexivity | constructor].
  - apply Forall_forall. intros f Hin. apply list_elem_of_In in Hin.
    apply filter_In in Hin as [Hin _]. rewrite Forall_forall in Hall.
    apply Hall. apply list_elem_of_In. exact Hin.
  - apply designer_updateField_keeps_width_current; assumption.
  - destruct event as [fieldId e|e| |]; simpl; try exact Hall.
    unfold Designer.handleMouseMove.
    destruct (_ || _); [exact Hall|].
    destruct (Designer.selectedField st) as [selected|]; [|exact Hall].
    destruct (Designer.imageRef refs) as [imageRect|]; [|exact Hall].
    destruct (Designer.relativePos template imageRect e) as [relativeX relativeY].
    simpl. apply designer_updateField_keeps_width_current; [reflexivity | exact Hall].
Qed.

(** X7: in the designer the stored width of every field stays the width
    the designer shows for it (for an auto-width field: the measurement of
    the placeholder of its label in its font) through every sequence of
    adding, deleting, dragging and patching fields, as long as every patch
    carries only truthy label, font size and font family values and sets a
    width only together with autoWidth: false. *)
Theorem designer_width_stays_current (measureText : Measure) (template : Template)
    (refs : Designer.Refs) (actions : list DesignerAction)
    (Hpanel : forall action, action ∈ actions -> panelAction action = true) :
  forall field,
    field ∈ Designer.fields
              (foldl (designerStep measureText template refs) designerStart actions) ->
    Designer.getEffectiveWidth measureText field = TextField.width field.
Proof.
  assert (Hgen : forall st,
            Forall (storedWidthCurrent measureText) (Designer.fields st) ->
            Forall (storedWidthCurrent measureText)
              (Designer.fields (foldl (designerStep measureText template refs) st actions))).
  { induction actions as [|action actions IH]; intros st Hst; simpl; [exact Hst|].
    apply IH.
    - intros a Ha. apply Hpanel. right. exact Ha.
    - apply designerStep_keeps_width_current; [apply Hpanel; left | exact Hst]. }
  intros field Hin.
  assert (Hstart : Forall (storedWidthCurrent measureText) (Designer.fields designerStart))
    by constructor.
  specialize (Hgen designerStart Hstart).
  rewrite Forall_forall in Hgen. apply (Hgen field Hin).
Qed.

Lemma designer_width_stays_current_witness :
  map (Designer.getEffectiveWidth halfEmMeasure)
    (Designer.fields
       (foldl (designerStep halfEmMeasure template1000x600 designerRefs)
          designerStart
          [AddField 1700000000000; UpdateField "field-1700000000000" enableAutoWidth;
           UpdateField "field-1700000000000" labelCourse]))
  = map TextField.width
      (Designer.fields
         (foldl (designerStep halfEmMeasure template1000x600 designerRefs)
            designerStart
            [AddField 1700000000000; UpdateField "field-1700000000000" enableAutoWidth;
             UpdateField "field-1700000000000" labelCourse])).
Proof.
  apply map_ext_in. intros field Hin.
  apply (designer_width_stays_current halfEmMeasure template1000x600 designerRefs
           [AddField 1700000000000; UpdateField "field-1700000000000" enableAutoWidth;
            UpdateField "field-1700000000000" labelCourse]).
  - intros action Ha. apply list_elem_of_In in Ha. simpl in Ha.
    destruct Ha as [<-|[<-|[<-|[]]]]; reflexivity.
  - apply list_elem_of_In. exact Hin.
Defined.

Example designer_width_after_relabel :
  map TextField.width
    (Designer.fields
       (foldl (designerStep halfEmMeasure template1000x600 designerRefs)
          designerStart
          [AddField 1700000000000; UpdateField "field-1700000000000" enableAutoWidth;
           UpdateField "field-1700000000000" labelCourse]))
  = [calculateTextWidth halfEmMeasure "Web Development" 200 "Arial"].
Proof. vm_compute. reflexivity. Qed.

(** ** Export runs with renders that may fail *)

Lemma exportLoop_outcome (measureText : Measure) (template : Template)
    (editableFields : list TextField.t) (imageLoads : nat -> bool)
    (rows : list CertificateData) (i : nat) (st : Generator.ExportState) :
  Generator.isGenerating st = true ->
  Generator.saved st = None ->
  Generator.generatedCount st = i ->
  let run := Generator.exportLoop measureText template editableFields imageLoads
               rows i st in
  (i <= Generator.generatedCount run <= i + length rows)%nat
  /\ (forall k, (i <= k < Generator.generatedCount run)%nat -> imageLoads k = true)
  /\ ((Generator.generatedCount run < i + length rows)%nat ->
      imageLoads (Generator.generatedCount run) = false
      /\ Generator.isGenerating run = true /\ Generator.saved run = None)
  /\ (Generator.generatedCount run = (i + length rows)%nat ->
      Generator.isGenerating run = false
      /\ Generator.saved run = Some (Generator.zip run))
  /\ (length (Generator.zip run)
      <= length (Generator.zip st) + (Generator.generatedCount run - i))%nat.
Proof.
  revert i st. induction rows as [|row rows IH]; intros i st Hgen Hsaved Hcount; simpl.
  - rewrite Hcount. repeat split; intros; try lia; reflexivity.
  - unfold Generator.generateCertificateImage.
    destruct (imageLoads i) eqn:Hload.
    + match goal with
      | |- context [Generator.exportLoop _ _ _ _ rows (S i) ?st'] =>
          specialize (IH (S i) st' Hgen Hsaved (Nat.add_1_r i));
          remember (Generator.exportLoop measureText template editableFields
                      imageLoads rows (S i) st') as run eqn:Erun
      end.
      simpl in IH. destruct IH as (Hrange & Hloaded & Hrest & Hdone & Hlen).
      split; [lia|]. split.
      { intros k Hk. destruct (Nat.eq_dec k i) as [->|Hne]; [exact Hload|].
        apply Hloaded. lia. }
      split; [intros Hlt; apply Hrest; lia|].
      split; [intros Heq; apply Hdone; lia|].
      etransitivity; [exact Hlen|].
      match goal with
      | |- context [zipFile ?n ?b ?z] => pose proof (zipFile_length n b z)
      end. lia.
    + rewrite Hcount. split; [lia|]. split; [intros k Hk; lia|].
      split; [intros _; repeat split; assumption|].
      split; [intros Heq; lia | lia].
Qed.


(** ** The archive *)

Lemma zipFile_names (name : string) (blob : Blob) (zip : Zip) :
  map fst (zipFile name blob zip)
  = if bool_decide (name ∈ map fst zip) then map fst zip else map fst zip ++ [name].
Proof.
  induction zip as [|[n b] zip IH]; simpl; [reflexivity|].
  destruct (String.eqb_spec n name) as [->|Hne]; simpl.
  - rewrite bool_decide_eq_true_2 by left. reflexivity.
  - rewrite IH. destruct (bool_decide (name ∈ map fst zip)) eqn:E.
    + apply bool_decide_eq_true in E.
      rewrite bool_decide_eq_true_2 by (right; exact E). reflexivity.
    + apply bool_decide_eq_false in E.
      rewrite bool_decide_eq_false_2; [reflexivity|].
      intros Hin. apply elem_of_cons in Hin as [Heq|Hin]; [congruence | contradiction].
Qed.

Lemma zipFile_NoDup (name : string) (blob : Blob) (zip : Zip) :
  NoDup (map fst zip) -> NoDup (map fst (zipFile name blob zip)).
Proof.
  intros Hnd. rewrite zipFile_names.
  destruct (bool_decide (name ∈ map fst zip)) eqn:E; [exact Hnd|].
  apply bool_decide_eq_false in E.
  apply NoDup_app. split; [exact Hnd|]. split.
  - intros x Hx Hin. apply list_elem_of_singleton in Hin. subst x. contradiction.
  - apply NoDup_singleton.
Qed.

Lemma zipLookup_zipFile_eq (name : string) (blob : Blob) (zip : Zip) :
  zipLookup name (zipFile name blob zip) = Some blob.
Proof.
  unfold zipLookup. induction zip as [|[n b] zip IH]; simpl.
  - rewrite String.eqb_refl. reflexivity.
  - destruct (String.eqb n name) eqn:E; simpl; rewrite E; [reflexivity | exact IH].
Qed.

Lemma zipLookup_zipFile_ne (name other : string) (blob : Blob) (zip : Zip) :
  other <> name -> zipLookup other (zipFile name blob zip) = zipLookup other zip.
Proof.
  intros Hne. unfold zipLookup. induction zip as [|[n b] zip IH]; simpl.
  - destruct (String.eqb_spec name other); [congruence | reflexivity].
  - destruct (String.eqb_spec n name) as [->|Hn]; simpl.
    + destruct (String.eqb_spec name other); [congruence | reflexivity].
    + destruct (String.eqb n other); [reflexivity | exact IH].
Qed.

Lemma fileAll_NoDup (entries zip : Zip) :
  NoDup (map fst zip) -> NoDup (map fst (fileAll zip entries)).
Proof.
  revert zip. induction entries as [|[n b] entries IH]; intros zip Hnd; [exact Hnd|].
  unfold fileAll in *. simpl. apply IH. apply zipFile_NoDup. exact Hnd.
Qed.

Lemma fileAll_app (zip entries entries' : Zip) :
  fileAll zip (entries ++ entries') = fileAll (fileAll zip entries) entries'.
Proof. unfold fileAll. apply foldl_app. Qed.

Lemma fileAll_lookup_later (other : string) (entries zip : Zip) :
  other ∉ map fst entries ->
  zipLookup other (fileAll zip entries) = zipLookup other zip.
Proof.
  revert zip. induction entries as [|[n b] entries IH]; intros zip Hnot; [reflexivity|].
  unfold fileAll in *. simpl. rewrite IH.
  - apply zipLookup_zipFile_ne. intros ->. apply Hnot. left.
  - intros Hin. apply Hnot. right. exact Hin.
Qed.

Lemma entriesFrom_app (measureText : Measure) (template : Template)
    (editableFields : list TextField.t) (rows rows' : list CertificateData) (i : nat) :
  entriesFrom template measureText editableFields i (rows ++ rows')
  = entriesFrom template measureText editableFields i rows
    ++ entriesFrom template measureText editableFields (i + length rows) rows'.
Proof.
  revert i. induction rows as [|r rows IH]; intros i; simpl.
  - rewrite Nat.add_0_r. reflexivity.
  - rewrite IH, Nat.add_succ_r. reflexivity.
Qed.

Lemma entriesFrom_names (measureText : Measure) (template : Template)
    (editableFields : list TextField.t) (rows : list CertificateData) (i : nat)
    (name : string) :
  name ∈ map fst (entriesFrom template measureText editableFields i rows) ->
  exists k row,
    rows !! k = Some row
    /\ name = replaceUnsafe (Generator.fileNameOf editableFields (i + k) row) +:+ ".png".
Proof.
  revert i. induction rows as [|r rows IH]; intros i Hin; simpl in Hin.
  - apply elem_of_nil in Hin. contradiction.
  - apply elem_of_cons in Hin as [->|Hin].
    + exists 0%nat, r. rewrite Nat.add_0_r. split; reflexivity.
    + destruct (IH (S i) Hin) as (k & row & Hk & Hname).
      exists (S k), row. rewrite Nat.add_succ_r. split; assumption.
Qed.

Lemma exportLoop_zip_NoDup (measureText : Measure) (template : Template)
    (editableFields : list TextField.t) (imageLoads : nat -> bool)
    (rows : list CertificateData) (i : nat) (st : Generator.ExportState) :
  NoDup (map fst (Generator.zip st)) ->
  NoDup (map fst (Generator.zip
                    (Generator.exportLoop measureText template editableFields
                       imageLoads rows i st))).
Proof.
  revert i st. induction rows as [|row rows IH]; intros i st Hnd; simpl; [exact Hnd|].
  unfold Generator.generateCertificateImage.
  destruct (imageLoads i); [|exact Hnd].
  apply IH. simpl. apply zipFile_NoDup. exact Hnd.
Qed.



(** ** Entry names *)

Lemma allSafe_chars (s : string) (c : ascii) :
  allSafe s = true -> In c (String.list_ascii_of_string s) -> safeChar c = true.
Proof.
  induction s as [|a s IH]; simpl; [contradiction|].
  intros H [->|Hin]; apply andb_true_iff in H as [Ha Hs]; [exact Ha | auto].
Qed.

Lemma fileNameOf_nonempty (editableFields : list TextField.t) (i : nat)
    (row : CertificateData) :
  Generator.fileNameOf editableFields i row <> "".
Proof.
  unfold Generator.fileNameOf.
  match goal with |- context [truthyString ?v] => destruct (truthyString v) eqn:E end.
  - apply truthyString_true in E. exact E.
  - discriminate.
Qed.

(** X10: the stem of every entry name (the part before .png) is never
    empty, is as long as the first-field value or ordinal name it comes
    from, and consists of letters, digits, '-' and '_' only: it holds no
    '/' and no '.', so the archive has no folders, and sanitizing it again
    changes nothing. *)
Theorem entry_name_stem_safe (editableFields : list TextField.t) (i : nat)
    (row : CertificateData) :
  let stem := replaceUnsafe (Generator.fileNameOf editableFields i row) in
  stem <> ""
  /\ String.length stem = String.length (Generator.fileNameOf editableFields i row)
  /\ (forall c, In c (String.list_ascii_of_string stem) ->
        safeChar c = true /\ c <> "/"%char /\ c <> "."%char /\ c <> " "%char)
  /\ replaceUnsafe stem = stem.
Proof.
  intros stem. subst stem.
  pose proof (fileNameOf_nonempty editableFields i row) as Hne.
  pose proof (replaceUnsafe_safe (Generator.fileNameOf editableFields i row)) as Hsafe.
  split; [|split; [apply replaceUnsafe_length|split]].
  - destruct (Generator.fileNameOf editableFields i row); [congruence | discriminate].
  - intros c Hin. pose proof (allSafe_chars _ c Hsafe Hin) as Hc.
    split; [exact Hc|]. repeat split; intros ->; discriminate.
  - generalize dependent (replaceUnsafe (Generator.fileNameOf editableFields i row)).
    intros s. induction s as [|a s IH]; simpl; [reflexivity|].
    intros H. apply andb_true_iff in H as [Ha Hs]. rewrite Ha, IH by exact Hs.
    reflexivity.
Qed.

(** ** Adding and deleting fields in the designer *)

Lemma designerStep_ids (measureText : Measure) (template : Template)
    (refs : Designer.Refs) (st : Designer.State) (action : DesignerAction) :
  keepsId action = true ->
  map TextField.id (Designer.fields (designerStep measureText template refs st action))
  = match action with
    | AddField now => map TextField.id (Designer.fields st) ++ ["field-" +:+ pretty now]
    | DeleteField id =>
        List.filter (fun i => negb (String.eqb i id)) (map TextField.id (Designer.fields st))
    | _ => map TextField.id (Designer.fields st)
    end.
Proof.
  intros Hkeep. destruct action as [now|id|id updates|event]; simpl.
  - rewrite map_app. reflexivity.
  - induction (Designer.fields st) as [|f fields IH]; simpl; [reflexivity|].
    destruct (String.eqb (TextField.id f) id); simpl; rewrite IH; reflexivity.
  - simpl in Hkeep. destruct (Patch.id updates) eqn:E; [discriminate|].
    apply (mapById_ids id _ (fun f => designer_updateOne_id measureText f updates E)).
  - destruct event as [fieldId e|e| |]; simpl; try reflexivity.
    unfold Designer.handleMouseMove.
    destruct (_ || _); [reflexivity|].
    destruct (Designer.selectedField st) as [selected|]; [|reflexivity].
    destruct (Designer.imageRef refs) as [imageRect|]; [|reflexivity].
    destruct (Designer.relativePos template imageRect e) as [relativeX relativeY].
    simpl.
    match goal with
    | |- context [Designer.updateField _ _ ?p _] =>
        apply (mapById_ids selected _
                 (fun f => designer_updateOne_id measureText f p eq_refl))
    end.
Qed.

Lemma filter_ids_NoDup (id : string) (ids : list string) :
  NoDup ids -> NoDup (List.filter (fun i => negb (String.eqb i id)) ids).
Proof.
  intros Hnd. induction Hnd as [|i ids Hnot Hnd IH]; simpl; [constructor|].
  destruct (negb (String.eqb i id)); [|exact IH].
  constructor; [|exact IH].
  intros Hin. apply Hnot. apply list_elem_of_In in Hin. apply filter_In in Hin as [Hin _].
  apply list_elem_of_In. exact Hin.
Qed.

Lemma designer_ids_invariant (measureText : Measure) (template : Template)
    (refs : Designer.Refs) (actions : list DesignerAction) :
  (forall action, action ∈ actions -> keepsId action = true) ->
  forall (st : Designer.State) (seen : list Z),
    NoDup (seen ++ stamps actions) ->
    NoDup (map TextField.id (Designer.fields st)) ->
    (forall id, id ∈ map TextField.id (Designer.fields st) ->
                exists now, now ∈ seen /\ id = "field-" +:+ pretty now) ->
    NoDup (map TextField.id
             (Designer.fields (foldl (designerStep measureText template refs) st actions))).
Proof.
  induction actions as [|action actions IH]; intros Hkeep st seen Hstamps Hnd Hseen;
    simpl; [exact Hnd|].
  assert (Hk : keepsId action = true) by (apply Hkeep; left).
  assert (Hkeep' : forall a, a ∈ actions -> keepsId a = true)
    by (intros a Ha; apply Hkeep; right; exact Ha).
  pose proof (designerStep_ids measureText template refs st action Hk) as Hids.
  destruct action as [now|id|id updates|event].
  - apply (IH Hkeep' _ (seen ++ [now])).
    + simpl in Hstamps. rewrite <- app_assoc. exact Hstamps.
    + rewrite Hids. apply NoDup_app. split; [exact Hnd|]. split; [|apply NoDup_singleton].
      intros id Hid Hin. apply list_elem_of_singleton in Hin. subst id.
      destruct (Hseen _ Hid) as (old & Hold & Heq).
      apply (inj (String.app "field-")) in Heq. apply (inj pretty) in Heq. subst old.
      simpl in Hstamps. apply NoDup_app in Hstamps as (_ & Hdisj & _).
      apply (Hdisj now Hold). left.
    + intros id Hid. rewrite Hids in Hid. apply elem_of_app in Hid as [Hid|Hid].
      * destruct (Hseen _ Hid) as (old & Hold & Heq). exists old.
        split; [apply elem_of_app; left; exact Hold | exact Heq].
      * apply list_elem_of_singleton in Hid. exists now.
        split; [apply elem_of_app; right; left | exact Hid].
  - apply (IH Hkeep' _ seen Hstamps).
    + rewrite Hids. apply filter_ids_NoDup. exact Hnd.
    + intros i Hi. rewrite Hids in Hi. apply Hseen.
      apply list_elem_of_In in Hi. apply filter_In in Hi as [Hi _].
      apply list_elem_of_In. exact Hi.
  - apply (IH Hkeep' _ seen Hstamps); rewrite Hids; assumption.
  - apply (IH Hkeep' _ seen Hstamps); rewrite Hids; assumption.
Qed.

(** X11: in the designer, when the fields are added at pairwise distinct
    times ([Date.now()] values) and no patch carries an id key, the ids of
    the fields are pairwise distinct after every sequence of adding,
    deleting, patching and dragging, so that updateField and deleteField
    address one field at a time. *)
Theorem designer_ids_distinct (measureText : Measure) (template : Template)
    (refs : Designer.Refs) (actions : list DesignerAction)
    (Hkeep : forall action, action ∈ actions -> keepsId action = true)
    (Hstamps : NoDup (stamps actions)) :
  NoDup (map TextField.id
           (Designer.fields
              (foldl (designerStep measureText template refs) designerStart actions))).
Proof.
  apply (designer_ids_invariant measureText template refs actions Hkeep designerStart []).
  - exact Hstamps.
  - constructor.
  - intros id Hid. apply elem_of_nil in Hid. contradiction.
Qed.

Lemma designer_ids_distinct_witness :
  NoDup (map TextField.id
           (Designer.fields
              (foldl (designerStep halfEmMeasure template1000x600 designerRefs)
                 designerStart
                 [AddField 1700000000000; AddField 1700000000001;
                  UpdateField "field-1700000000000" labelCourse]))).
Proof.
  apply (designer_ids_distinct halfEmMeasure template1000x600 designerRefs).
  - intros action Hin. apply list_elem_of_In in Hin. simpl in Hin.
    destruct Hin as [<-|[<-|[<-|[]]]]; reflexivity.
  - simpl. repeat constructor; rewrite ?list_elem_of_In; simpl; intuition discriminate.
Defined.

(** X12: deleteField keeps exactly the fields whose id differs from the
    given one and clears the selection; afterwards an update addressed to
    that id changes nothing; and deleting a field right after adding it
    gives back the collection as it was, provided no older field has the
    id of the new one. *)
Theorem delete_removes_id (measureText : Measure) (id : string) (st : Designer.State) :
  let st' := Designer.deleteField id st in
  Designer.selectedField st' = None
  /\ (forall f, f ∈ Designer.fields st'
                <-> f ∈ Designer.fields st /\ TextField.id f <> id)
  /\ Designer.fields st' `sublist_of` Designer.fields st
  /\ (forall updates,
        Designer.updateField measureText id updates (Designer.fields st')
        = Designer.fields st')
  /\ (forall now,
        id = "field-" +:+ pretty now ->
        (forall f, f ∈ Designer.fields st -> TextField.id f <> id) ->
        Designer.fields (Designer.deleteField id (Designer.addField now st))
        = Designer.fields st).
Proof.
  intros st'. subst st'. simpl.
  assert (Hmem : forall f,
            f ∈ List.filter (fun field => negb (String.eqb (TextField.id field) id))
                  (Designer.fields st)
            <-> f ∈ Designer.fields st /\ TextField.id f <> id).
  { intros f. rewrite !list_elem_of_In, filter_In.
    destruct (String.eqb_spec (TextField.id f) id); simpl; intuition congruence. }
  assert (Hkeep : forall fields : list TextField.t,
            (forall f, f ∈ fields -> TextField.id f <> id) ->
            List.filter (fun field => negb (String.eqb (TextField.id field) id)) fields
            = fields).
  { induction fields as [|f fields IH]; intros Hall; simpl; [reflexivity|].
    destruct (String.eqb_spec (TextField.id f) id) as [He|Hne]; simpl.
    - exfalso. apply (Hall f); [left | exact He].
    - rewrite IH; [reflexivity|]. intros g Hg. apply Hall. right. exact Hg. }
  split; [reflexivity|]. split; [exact Hmem|]. split; [|split].
  - clear Hmem. induction (Designer.fields st) as [|f fields IH]; simpl; [constructor|].
    destruct (negb (String.eqb (TextField.id f) id)); constructor; exact IH.
  - intros updates. apply (mapById_absent id).
    intros f Hf. apply Hmem in Hf. tauto.
  - intros now Hid Hfresh.
    rewrite List.filter_app, Hkeep by exact Hfresh.
    cbn [List.filter TextField.id].
    rewrite <- Hid, String.eqb_refl. apply app_nil_r.
Qed.

(** ** Placeholder texts *)

Lemma append_nil (t : string) : "" +:+ t = t.
Proof. reflexivity. Qed.

Lemma append_cons (a : ascii) (s t : string) :
  String a s +:+ t = String a (s +:+ t).
Proof. reflexivity. Qed.

Lemma prefix_spec (needle s : string) :
  String.prefix needle s = true <-> exists post, s = needle +:+ post.
Proof.
  revert needle. induction s as [|b s IH]; intros needle; simpl.
  - destruct needle as [|a needle]; simpl.
    + split; [intros _; exists ""; reflexivity | reflexivity].
    + split; [discriminate | intros [post H]; rewrite append_cons in H; discriminate].
  - destruct needle as [|a needle].
    + split; [intros _; exists (String b s); reflexivity | reflexivity].
    + destruct (ascii_dec a b) as [->|Hne].
      * rewrite IH. split; intros [post H]; exists post.
        -- rewrite append_cons. f_equal. exact H.
        -- rewrite append_cons in H. injection H as H. exact H.
      * split; [discriminate|]. intros [post H]. rewrite append_cons in H.
        injection H as Hab _. congruence.
Qed.

Lemma includes_spec (s needle : string) :
  includes s needle = true <-> exists pre post, s = pre +:+ needle +:+ post.
Proof.
  induction s as [|a s IH].
  - change (includes "" needle) with (if String.prefix needle "" then true else false).
    destruct (String.prefix needle "") eqn:E.
    + split; [|reflexivity]. intros _. apply prefix_spec in E as [post H].
      exists "", post. exact H.
    + split; [discriminate|]. intros (pre & post & H).
      destruct pre; [|rewrite append_cons in H; discriminate].
      rewrite append_nil in H.
      assert (String.prefix needle "" = true) by (apply prefix_spec; eauto).
      congruence.
  - change (includes (String a s) needle)
      with (if String.prefix needle (String a s) then true else includes s needle).
    destruct (String.prefix needle (String a s)) eqn:E.
    + split; [|reflexivity]. intros _. apply prefix_spec in E as [post H].
      exists "", post. exact H.
    + rewrite IH. split.
      * intros (pre & post & H). exists (String a pre), post.
        rewrite append_cons. f_equal. exact H.
      * intros (pre & post & H). destruct pre as [|b pre].
        -- rewrite append_nil in H.
           assert (String.prefix needle (String a s) = true)
             by (apply prefix_spec; eauto).
           congruence.
        -- rewrite append_cons in H. injection H as _ H. eauto.
Qed.

(** X13: the placeholder of a label is "John Smith" exactly when the
    label, with its ASCII letters lowered, contains "name" somewhere,
    whatever else it contains; it is "Sample Text" exactly when the lowered
    label contains none of the nine keywords; and it is never empty. *)
Theorem getDummyText_keywords (label : string) :
  (Designer.getDummyText label = "John Smith"
   <-> exists pre post, toLowerCase label = pre +:+ "name" +:+ post)
  /\ (Designer.getDummyText label = "Sample Text"
      <-> forall keyword, keyword ∈ dummyKeywords ->
            ~ exists pre post, toLowerCase label = pre +:+ keyword +:+ post)
  /\ Designer.getDummyText label <> "".
Proof.
  unfold Designer.getDummyText.
  assert (Hall : forall keyword,
            (~ exists pre post, toLowerCase label = pre +:+ keyword +:+ post)
            <-> includes (toLowerCase label) keyword = false).
  { intros keyword. rewrite <- includes_spec.
    destruct (includes (toLowerCase label) keyword); split; congruence. }
  rewrite <- includes_spec.
  split; [|split].
  - repeat (match goal with |- context [if ?b then _ else _] => destruct b end;
            try (split; [discriminate | discriminate])). 
    all: split; congruence.
  - split.
    + intros Hsample keyword Hin. apply Hall.
      unfold dummyKeywords in Hin. apply list_elem_of_In in Hin. simpl in Hin.
      repeat match goal with
             | H : _ \/ _ |- _ => destruct H as [<-|H]
             end; try contradiction;
        repeat match goal with
               | H : context [if ?b then _ else _] |- _ =>
                   destruct b eqn:?; try discriminate
               end; reflexivity.
    + intros Hnone.
      repeat match goal with
             | |- context [includes (toLowerCase label) ?k] =>
                 rewrite (proj1 (Hall k)) by
                   (apply Hnone; unfold dummyKeywords; apply list_elem_of_In; simpl; tauto)
             end.
      reflexivity.
  - repeat match goal with |- context [if ?b then _ else _] => destruct b end;
      discriminate.
Qed.

(** ** The wizard *)

Lemma Step_eqb_eq (a b : Step) : Step_eqb a b = true <-> a = b.
Proof. destruct a, b; simpl; split; congruence. Qed.

Lemma includesStep_In (steps : list Step) (step : Step) :
  includesStep steps step = true <-> step ∈ steps.
Proof.
  unfold includesStep. rewrite existsb_exists, list_elem_of_In. split.
  - intros (x & Hin & Heq). apply Step_eqb_eq in Heq. subst x. exact Hin.
  - intros Hin. exists step. split; [exact Hin | apply Step_eqb_eq; reflexivity].
Qed.

Lemma includesStep_app (steps : list Step) (added step : Step) :
  includesStep (steps ++ [added]) step = includesStep steps step || Step_eqb step added.
Proof.
  unfold includesStep. rewrite existsb_app. simpl. rewrite orb_false_r. reflexivity.
Qed.

Lemma markStepCompleted_includes (st : App.State) (added step : Step) :
  includesStep (App.completedSteps (App.markStepCompleted added st)) step
  = includesStep (App.completedSteps st) step || Step_eqb step added.
Proof.
  unfold App.markStepCompleted.
  destruct (includesStep (App.completedSteps st) added) eqn:E; simpl.
  - destruct (Step_eqb step added) eqn:Es; [|rewrite orb_false_r; reflexivity].
    apply Step_eqb_eq in Es. subst step. rewrite E. reflexivity.
  - apply includesStep_app.
Qed.

Lemma markStepCompleted_NoDup (st : App.State) (added : Step) :
  NoDup (App.completedSteps st) ->
  NoDup (App.completedSteps (App.markStepCompleted added st)).
Proof.
  intros Hnd. unfold App.markStepCompleted.
  destruct (includesStep (App.completedSteps st) added) eqn:E; simpl; [exact Hnd|].
  apply NoDup_app. split; [exact Hnd|]. split; [|apply NoDup_singleton].
  intros x Hx Hin. apply list_elem_of_singleton in Hin. subst x.
  apply includesStep_In in Hx. congruence.
Qed.

Lemma markStepCompleted_frame (st : App.State) (added : Step) :
  App.currentStep (App.markStepCompleted added st) = App.currentStep st
  /\ App.template (App.markStepCompleted added st) = App.template st
  /\ App.fields (App.markStepCompleted added st) = App.fields st
  /\ App.data (App.markStepCompleted added st) = App.data st.
Proof.
  unfold App.markStepCompleted. destruct (negb _); repeat split; reflexivity.
Qed.

Lemma nonEmpty_true {A} (l : list A) : App.nonEmpty l = true <-> l <> [].
Proof. destruct l; simpl; split; congruence. Qed.

Lemma isSome_true {A} (o : option A) : App.isSome o = true <-> o <> None.
Proof. destruct o; simpl; split; congruence. Qed.

Lemma wizard_next (st : App.State) (from to : Step) :
  wizardInvariant st ->
  App.currentStep st = from ->
  stepOrder to = S (stepOrder from) ->
  from <> Generate ->
  App.template st <> None ->
  ((2 <= stepOrder to)%nat -> App.fields st <> []) ->
  (to = Generate -> App.data st <> []) ->
  wizardInvariant (App.setCurrentStep to (App.markStepCompleted from st)).
Proof.
  intros (H1 & H2 & H3 & H4 & H5 & H6 & H7) Hfrom Hto Hgen Htpl Hfields Hdata.
  destruct (markStepCompleted_frame st from) as (Fc & Ft & Ff & Fd).
  unfold wizardInvariant. simpl. rewrite Ft, Ff, Fd.
  split; [right; exact Htpl|]. split; [exact Hfields|]. split; [exact Hdata|].
  split; [apply markStepCompleted_NoDup; exact H4|].
  split; [|split].
  - rewrite markStepCompleted_includes, H5. destruct from; simpl; congruence.
  - intros s Hs. rewrite markStepCompleted_includes.
    destruct (Step_eqb s from) eqn:E; [apply orb_true_r|].
    rewrite orb_false_r. apply H6. rewrite Hfrom.
    assert (s <> from) by (intros ->; destruct from; discriminate).
    assert (stepOrder s <> stepOrder from) by (destruct s, from; simpl; congruence).
    lia.
  - intros s s' Hle. rewrite !markStepCompleted_includes. intros Hs.
    apply orb_true_iff in Hs as [Hs|Hs].
    + rewrite (H7 s s' Hle Hs). reflexivity.
    + apply Step_eqb_eq in Hs. subst s.
      destruct (Step_eqb s' from) eqn:E; [apply orb_true_r|].
      rewrite orb_false_r. apply H6. rewrite Hfrom.
      assert (stepOrder s' <> stepOrder from)
        by (destruct s', from; simpl; simpl in E; congruence).
      lia.
Qed.

Lemma wizard_back (st : App.State) (to : Step) :
  wizardInvariant st ->
  (stepOrder to <= stepOrder (App.currentStep st))%nat ->
  (to = Upload \/ App.template st <> None) ->
  wizardInvariant (App.setCurrentStep to st).
Proof.
  intros (H1 & H2 & H3 & H4 & H5 & H6 & H7) Hle Htpl.
  unfold wizardInvariant. simpl.
  split; [exact Htpl|]. split; [intros Hto; apply H2; lia|].
  split.
  { intros ->. apply H3. destruct (App.currentStep st); simpl in Hle; try lia. reflexivity. }
  split; [exact H4|]. split; [exact H5|]. split; [|exact H7].
  intros s Hs. apply H6. lia.
Qed.

Lemma wizard_step (st : App.State) (action : App.Action) :
  wizardInvariant st -> wizardInvariant (App.step st action).
Proof.
  intros Hinv. unfold App.step.
  destruct (App.enabled st action) eqn:Hen; [|exact Hinv].
  pose proof Hinv as (H1 & H2 & H3 & H4 & H5 & H6 & H7).
  destruct action; simpl in *;
    repeat match goal with
           | H : _ && _ = true |- _ => apply andb_true_iff in H as [? ?]
           | H : Step_eqb _ _ = true |- _ => apply Step_eqb_eq in H
           | H : App.isSome _ = true |- _ => apply isSome_true in H
           | H : App.nonEmpty _ = true |- _ => apply nonEmpty_true in H
           end.
  - unfold wizardInvariant. simpl. repeat split; try assumption. right. discriminate.
  - unfold wizardInvariant. simpl. repeat split; try assumption. left. assumption.
  - apply (wizard_next st Upload Design); try assumption; try reflexivity;
      try discriminate; simpl; intros; lia.
  - unfold wizardInvariant. simpl. repeat split; try assumption.
    intros Hle. match goal with H : App.currentStep st = _ |- _ => rewrite H in Hle end.
    simpl in Hle. lia.
  - apply (wizard_next st Design Data); try assumption; try reflexivity;
      try discriminate; intros; assumption.
  - apply wizard_back; [exact Hinv | simpl; lia | left; reflexivity].
  - unfold wizardInvariant. simpl. repeat split; try assumption; intros; assumption.
  - unfold wizardInvariant. simpl. repeat split; try assumption; intros; assumption.
  - unfold wizardInvariant. simpl. repeat split; try assumption.
    intros Hg. congruence.
  - assert (Htpl : App.template st <> None).
    { destruct H1 as [Hup|Htpl]; [congruence | exact Htpl]. }
    apply (wizard_next st Data Generate); try assumption; try reflexivity;
      try discriminate.
    + intros _. apply H2.
      match goal with H : App.currentStep st = _ |- _ => rewrite H end. simpl. lia.
    + intros _. assumption.
  - apply wizard_back; [exact Hinv| |].
    + match goal with H : App.currentStep st = _ |- _ => rewrite H end. simpl. lia.
    + destruct H1 as [Hup|Htpl]; [congruence | right; exact Htpl].
  - apply wizard_back; [exact Hinv| |].
    + match goal with H : App.currentStep st = _ |- _ => rewrite H end. simpl. lia.
    + right. assumption.
  - unfold wizardInvariant, App.handleReset. simpl.
    repeat split; try discriminate; try reflexivity; try constructor;
      intros; try lia; try congruence; try discriminate.
Qed.

Lemma wizard_reachable (actions : list App.Action) : wizardInvariant (App.run actions).
Proof.
  unfold App.run.
  assert (Hgen : forall st, wizardInvariant st -> wizardInvariant (foldl App.step st actions)).
  { induction actions as [|a actions IH]; intros st Hst; simpl; [exact Hst|].
    apply IH. apply wizard_step. exact Hst. }
  apply Hgen. unfold wizardInvariant. simpl.
  repeat split; try discriminate; try reflexivity; try constructor;
    intros; try lia; try congruence; try discriminate.
Qed.

(** X14: whatever the user does in the wizard, the step indicator shows
    every step before the current one as completed, never shows the last
    step (generate) as completed, shows the completed steps as an initial
    run of the wizard's steps, and lists no step twice as completed; the
    index it prints for the current step is the step's position (never the
    -1 of a failed search). *)
Theorem step_statuses_reachable (actions : list App.Action) :
  let st := App.run actions in
  let status :=
    StepIndicator.getStepStatus (App.currentStep st) (App.completedSteps st) in
  status Generate <> StepIndicator.Completed
  /\ (forall s, (stepOrder s < stepOrder (App.currentStep st))%nat ->
                status s = StepIndicator.Completed)
  /\ (forall s s', (stepOrder s' <= stepOrder s)%nat ->
                   status s = StepIndicator.Completed ->
                   status s' = StepIndicator.Completed)
  /\ NoDup (App.completedSteps st)
  /\ StepIndicator.getCurrentStepIndex (App.currentStep st)
     = Z.of_nat (stepOrder (App.currentStep st)).
Proof.
  intros st status. subst status.
  destruct (wizard_reachable actions) as (_ & _ & _ & Hnd & Hgen & Hbefore & Hprefix).
  fold st in Hnd, Hgen, Hbefore, Hprefix.
  assert (Hstatus : forall s,
            StepIndicator.getStepStatus (App.currentStep st) (App.completedSteps st) s
            = StepIndicator.Completed
            <-> includesStep (App.completedSteps st) s = true).
  { intros s. unfold StepIndicator.getStepStatus.
    destruct (includesStep (App.completedSteps st) s); [tauto|].
    destruct (Step_eqb s (App.currentStep st)); split; discriminate. }
  split; [rewrite Hstatus; congruence|].
  split; [intros s Hs; apply Hstatus, Hbefore; exact Hs|].
  split; [intros s s' Hle Hs; apply Hstatus; apply (Hprefix s s' Hle);
          apply Hstatus; exact Hs|].
  split; [exact Hnd|].
  destruct (App.currentStep st); reflexivity.
Qed.

(** X15: whatever the user does in the wizard, the designer and the
    generator are only reached with a template, the data and generate
    steps only with at least one field, and the generate step only with at
    least one data row; so the generator's first preview (row 0) finds its
    row and paints one text per field. *)
Theorem generator_reached_with_inputs (actions : list App.Action) :
  let st := App.run actions in
  (App.currentStep st <> Upload -> exists t, App.template st = Some t)
  /\ ((App.currentStep st = Data \/ App.currentStep st = Generate) ->
      App.fields st <> [])
  /\ (App.currentStep st = Generate ->
      App.data st <> []
      /\ forall measureText t,
           App.template st = Some t ->
           exists shown,
             Generator.renderPreview measureText t (App.data st) 0 (App.fields st)
               true true
             = Generator.Painted shown
             /\ srf_width shown = tpl_width t /\ srf_height shown = tpl_height t
             /\ length (textOps (srf_ops shown)) = length (App.fields st)).
Proof.
  intros st.
  destruct (wizard_reachable actions) as (Htpl & Hfields & Hdata & _).
  fold st in Htpl, Hfields, Hdata.
  split; [|split].
  - intros Hne. destruct Htpl as [Hup|Hsome]; [contradiction|].
    destruct (App.template st) as [t|]; [exists t; reflexivity | contradiction].
  - intros [Hs|Hs]; apply Hfields; rewrite Hs; simpl; lia.
  - intros Hgen. split; [apply Hdata; exact Hgen|].
    intros measureText t Ht. specialize (Hdata Hgen).
    unfold Generator.renderPreview. simpl.
    destruct (App.data st) as [|row rows] eqn:Erows; [contradiction|]. simpl.
    eexists. split; [reflexivity|]. simpl. split; [reflexivity|]. split; [reflexivity|].
    assert (Hp : forall f, isFillText (Generator.previewText measureText row f) = true).
    { intros f. rewrite previewText_anchor. reflexivity. }
    change (length (textOps (map (Generator.previewText measureText row) (App.fields st)))
            = length (App.fields st)).
    rewrite textOps_map by exact Hp. apply length_map.
Qed.

Example wizard_back_shows_no_current_step :
  let st := App.run [App.TemplateLoaded template1000x600; App.NextFromUpload;
                     App.BackFromDesign] in
  App.currentStep st = Upload
  /\ map (StepIndicator.getStepStatus (App.currentStep st) (App.completedSteps st))
       StepIndicator.steps
     = [StepIndicator.Completed; StepIndicator.Upcoming;
        StepIndicator.Upcoming; StepIndicator.Upcoming].
Proof. split; reflexivity. Qed.

(** ** Automatic field creation *)

Lemma pretty_N_go_noDash (x : N) (s : string) :
  noDash s = true -> noDash (pretty_N_go x s) = true.
Proof.
  revert s. induction (N.lt_wf_0 x) as [x _ IH]; intros s Hs.
  destruct (N.eq_dec x 0%N) as [->|Hx].
  - rewrite pretty_N_go_0. exact Hs.
  - rewrite pretty_N_go_step by lia. apply IH.
    + apply N.div_lt; lia.
    + simpl. rewrite Hs, andb_true_r.
      unfold pretty_N_char. repeat case_match; reflexivity.
Qed.

Lemma pretty_nat_noDash (n : nat) : noDash (pretty n) = true.
Proof.
  unfold pretty, pretty_nat, pretty, pretty_N.
  case_decide; [reflexivity|]. apply pretty_N_go_noDash. reflexivity.
Qed.

Lemma noDash_dash (a d : string) : noDash (a +:+ String "-" d) = false.
Proof.
  induction a as [|c a IH].
  - reflexivity.
  - rewrite append_cons. simpl. rewrite IH. apply andb_false_r.
Qed.

Lemma dash_split (a a' d d' : string) :
  noDash d = true -> noDash d' = true ->
  a +:+ String "-" d = a' +:+ String "-" d' -> d = d'.
Proof.
  intros Hd Hd'. revert a'. induction a as [|c a IH]; intros [|c' a'] H.
  - rewrite !append_nil in H. congruence.
  - rewrite append_nil, append_cons in H. injection H as _ H.
    rewrite H, noDash_dash in Hd. discriminate.
  - rewrite append_nil, append_cons in H. injection H as _ H.
    rewrite <- H, noDash_dash in Hd'. discriminate.
  - rewrite !append_cons in H. injection H as _ H. apply (IH a' H).
Qed.

Lemma grid_column_apart (a b : nat) :
  (a < b)%nat ->
  100 + inject_Z (Z.of_nat a) * 300 + 250 <= 100 + inject_Z (Z.of_nat b) * 300.
Proof.
  intros Hlt.
  assert (H : inject_Z (Z.of_nat a) + 1 <= inject_Z (Z.of_nat b)).
  { change 1 with (inject_Z 1). rewrite <- inject_Z_plus, <- Zle_Qle. lia. }
  generalize dependent (inject_Z (Z.of_nat a)).
  generalize dependent (inject_Z (Z.of_nat b)). intros B A H. lra.
Qed.

Lemma grid_row_apart (a b : nat) :
  (a < b)%nat ->
  150 + inject_Z (Z.of_nat a) * 80 + 40 <= 150 + inject_Z (Z.of_nat b) * 80.
Proof.
  intros Hlt.
  assert (H : inject_Z (Z.of_nat a) + 1 <= inject_Z (Z.of_nat b)).
  { change 1 with (inject_Z 1). rewrite <- inject_Z_plus, <- Zle_Qle. lia. }
  generalize dependent (inject_Z (Z.of_nat a)).
  generalize dependent (inject_Z (Z.of_nat b)). intros B A H. lra.
Qed.

(** X16: automatic field creation does nothing without detected columns;
    otherwise it closes the column panel and hands on one field per
    detected column, in order, labelled with the column names, with
    pairwise distinct ids (whatever the clock reads), auto-width off, and
    boxes of 250 x 40 that never overlap one another. *)
Theorem auto_fields_distinct (clock : nat -> Z) (st : DataImport.State) :
  match DataImport.autoMapFields clock st with
  | (st', None) => DataImport.detectedColumns st = [] /\ st' = st
  | (st', Some newFields) =>
      DataImport.detectedColumns st <> []
      /\ DataImport.showColumnMapping st' = false
      /\ DataImport.detectedColumns st' = DataImport.detectedColumns st
      /\ map TextField.label newFields = DataImport.detectedColumns st
      /\ NoDup (map TextField.id newFields)
      /\ (forall f, f ∈ newFields ->
            TextField.autoWidth f = false
            /\ TextField.width f = 250 /\ TextField.height f = 40)
      /\ (forall i j fi fj, i <> j ->
            newFields !! i = Some fi -> newFields !! j = Some fj ->
            boxesApart fi fj)
  end.
Proof.
  unfold DataImport.autoMapFields.
  destruct (DataImport.detectedColumns st) as [|column columns] eqn:Ecols;
    [split; reflexivity|].
  set (cols := column :: columns).
  set (build := fun (index : nat) (column : string) => TextField.mk _ _ _ _ _ _ _ _ _ _ _).
  assert (Hlookup : forall i f,
            imap build cols !! i = Some f ->
            exists column, cols !! i = Some column /\ f = build i column).
  { intros i f Hf. rewrite list_lookup_imap in Hf.
    destruct (cols !! i) as [c|]; [|discriminate].
    exists c. split; [reflexivity|]. simpl in Hf. congruence. }
  split; [discriminate|]. split; [reflexivity|]. split; [reflexivity|].
  split; [|split; [|split]].
  - apply list_eq. intros i. rewrite list_lookup_fmap, list_lookup_imap.
    destruct (cols !! i); reflexivity.
  - apply NoDup_alt. intros i j id Hi Hj.
    rewrite list_lookup_fmap in Hi, Hj.
    destruct (imap build cols !! i) as [fi|] eqn:Efi; [|discriminate].
    destruct (imap build cols !! j) as [fj|] eqn:Efj; [|discriminate].
    destruct (Hlookup i fi Efi) as (ci & _ & ->).
    destruct (Hlookup j fj Efj) as (cj & _ & ->).
    simpl in Hi, Hj. injection Hi as Hi. injection Hj as Hj. subst id.
    apply (inj (String.app "field-")) in Hj.
    apply dash_split in Hj; [|apply pretty_nat_noDash..].
    apply (inj pretty) in Hj. congruence.
  - intros f Hf. apply list_elem_of_lookup in Hf as [i Hi].
    destruct (Hlookup i f Hi) as (c & _ & ->). repeat split; reflexivity.
  - intros i j fi fj Hne Hi Hj.
    destruct (Hlookup i fi Hi) as (ci & _ & ->).
    destruct (Hlookup j fj Hj) as (cj & _ & ->).
    unfold boxesApart. simpl.
    assert (Hcases : (i mod 2 < j mod 2 \/ j mod 2 < i mod 2
                      \/ i / 2 < j / 2 \/ j / 2 < i / 2)%nat).
    { pose proof (Nat.div_mod_eq i 2). pose proof (Nat.div_mod_eq j 2). lia. }
    destruct Hcases as [H|[H|[H|H]]].
    + left. apply grid_column_apart. exact H.
    + right. left. apply grid_column_apart. exact H.
    + right. right. left. apply grid_row_apart. exact H.
    + right. right. right. apply grid_row_apart. exact H.
Qed.

(** ** Importing data *)

Lemma hasContent_spec (row : CertificateData) :
  DataImport.hasContent row = true
  <-> exists key value, row !! key = Some value /\ isBlank value = false.
Proof.
  unfold DataImport.hasContent. rewrite existsb_exists. split.
  - intros (value & Hin & Hvalue). apply andb_true_iff in Hvalue as [_ Hblank].
    apply in_map_iff in Hin as ([key v] & Hv & Hin). simpl in Hv. subst v.
    apply list_elem_of_In, elem_of_map_to_list in Hin.
    exists key, value. split; [exact Hin|]. destruct (isBlank value); [discriminate|reflexivity].
  - intros (key & value & Hlookup & Hblank). exists value. split.
    + apply in_map_iff. exists (key, value). split; [reflexivity|].
      apply list_elem_of_In, elem_of_map_to_list. exact Hlookup.
    + rewrite Hblank. destruct value; [discriminate | reflexivity].
Qed.

Lemma filter_nil_none {A} (test : A -> bool) (l : list A) :
  List.filter test l = [] -> forall x, In x l -> test x = false.
Proof.
  intros Hnil x Hin. destruct (test x) eqn:E; [|reflexivity].
  assert (Hx : In x (List.filter test l)) by (apply filter_In; split; assumption).
  rewrite Hnil in Hx. contradiction.
Qed.

(** X17: when a parse ends, processing is over, and rows are handed on
    exactly when no error is reported.  Rows are handed on only if the
    parser reported no error and some row has a cell that is not blank;
    what is handed on are then exactly the rows with such a cell, in file
    order, and, when fields exist, the first of them has a non-blank
    column name for every field label. *)
Theorem import_outcome (keysOf : CertificateData -> list string)
    (fields : list TextField.t) (outcome : DataImport.ParseOutcome)
    (st : DataImport.State)
    (Hkeys : forall row key, key ∈ keysOf row <-> is_Some (row !! key)) :
  let st' := fst (DataImport.processFile keysOf fields outcome st) in
  let handed := snd (DataImport.processFile keysOf fields outcome st) in
  DataImport.isProcessing st' = false
  /\ (handed = None <-> DataImport.errors st' <> [])
  /\ forall rows,
       handed = Some rows ->
       exists results first rest,
         outcome = DataImport.Complete results
         /\ DataImport.res_errors results = []
         /\ rows = List.filter DataImport.hasContent (DataImport.res_data results)
         /\ rows = first :: rest
         /\ (forall row, row ∈ rows
               <-> row ∈ DataImport.res_data results
                   /\ exists key value, row !! key = Some value /\ isBlank value = false)
         /\ rows `sublist_of` DataImport.res_data results
         /\ DataImport.detectedColumns st'
            = List.filter (fun key => negb (isBlank key)) (keysOf first)
         /\ (forall field, field ∈ fields ->
               is_Some (first !! TextField.label field)
               /\ isBlank (TextField.label field) = false).
Proof.
  intros st' handed. subst st' handed. unfold DataImport.processFile.
  destruct outcome as [results|message]; simpl;
    [|split; [reflexivity|]; split; [split; [discriminate | reflexivity] | discriminate]].
  destruct (DataImport.res_errors results) as [|e errs] eqn:Eerr; simpl;
    [|split; [reflexivity|]; split; [split; [discriminate | reflexivity] | discriminate]].
  destruct (List.filter DataImport.hasContent (DataImport.res_data results))
    as [|first rest] eqn:Evalid; simpl;
    [split; [reflexivity|]; split; [split; [discriminate | reflexivity] | discriminate]|].
  assert (Hrows : forall row, row ∈ first :: rest
            <-> row ∈ DataImport.res_data results
                /\ exists key value, row !! key = Some value /\ isBlank value = false).
  { intros row. rewrite <- Evalid, !list_elem_of_In, filter_In, hasContent_spec.
    reflexivity. }
  assert (Hsub : first :: rest `sublist_of` DataImport.res_data results).
  { rewrite <- Evalid. clear. induction (DataImport.res_data results) as [|r l IH];
      simpl; [constructor|]. destruct (DataImport.hasContent r); constructor; exact IH. }
  destruct fields as [|field0 fields'] eqn:Efields; cbv beta iota zeta.
  - simpl. split; [reflexivity|]. split; [split; [discriminate | congruence]|].
    intros rows Hrows'. injection Hrows' as <-.
    exists results, first, rest.
    split; [reflexivity|]. split; [exact Eerr|]. split; [symmetry; exact Evalid|].
    split; [reflexivity|]. split; [exact Hrows|]. split; [exact Hsub|].
    split; [reflexivity|].
    intros field Hin. apply elem_of_nil in Hin. contradiction.
  - match goal with
    | |- context [List.filter ?test (map TextField.label (field0 :: fields'))] =>
        destruct (List.filter test (map TextField.label (field0 :: fields')))
          as [|missing others] eqn:Emissing
    end; simpl.
    + split; [reflexivity|]. split; [split; [discriminate | congruence]|].
      intros rows Hrows'. injection Hrows' as <-.
      exists results, first, rest.
      split; [reflexivity|]. split; [exact Eerr|]. split; [symmetry; exact Evalid|].
      split; [reflexivity|]. split; [exact Hrows|]. split; [exact Hsub|].
      split; [reflexivity|].
      intros field Hin.
      pose proof (filter_nil_none _ _ Emissing (TextField.label field)) as Hnone.
      assert (Hlabel : In (TextField.label field)
                         (map TextField.label (field0 :: fields'))).
      { apply in_map. apply list_elem_of_In. exact Hin. }
      specialize (Hnone Hlabel). apply negb_false_iff, existsb_exists in Hnone.
      destruct Hnone as (key & Hkey & Heq). apply String.eqb_eq in Heq. subst key.
      apply filter_In in Hkey as [Hkey Hblank]. split.
      * apply Hkeys, list_elem_of_In. exact Hkey.
      * apply negb_true_iff. exact Hblank.
    + split; [reflexivity|]. split; [split; [discriminate | reflexivity] | discriminate].
Qed.

Lemma import_outcome_witness :
  snd (DataImport.processFile sortedKeys [nameField false] parsedThree (importIdle []))
  = Some [rowAnn; rowBeatrice]
  /\ DataImport.errors
       (fst (DataImport.processFile sortedKeys [nameField false] parsedThree
               (importIdle []))) = [].
Proof.
  assert (Hkeys : forall (row : CertificateData) key,
            key ∈ sortedKeys row <-> is_Some (row !! key)).
  { intros row key. unfold sortedKeys. rewrite list_elem_of_fmap. split.
    - intros ([k v] & -> & Hin). apply elem_of_map_to_list in Hin. eauto.
    - intros [v Hv]. exists (key, v). split; [reflexivity|].
      apply elem_of_map_to_list. exact Hv. }
  destruct (import_outcome sortedKeys [nameField false] parsedThree (importIdle []) Hkeys)
    as (_ & Herrors & _).
  assert (Hhanded :
    snd (DataImport.processFile sortedKeys [nameField false] parsedThree (importIdle []))
    = Some [rowAnn; rowBeatrice]) by (vm_compute; reflexivity).
  split; [exact Hhanded|].
  destruct (DataImport.errors _) eqn:E; [reflexivity|].
  exfalso. assert (Hnone : snd (DataImport.processFile sortedKeys [nameField false]
                                    parsedThree (importIdle [])) = None).
  { apply Herrors. discriminate. }
  rewrite Hhanded in Hnone. discriminate.
Defined.

(** ** Rendering: edge cases *)

(** X18: what renderPreview leaves behind.  Without a canvas nothing
    happens; with a canvas but an image that does not load the canvas is
    only resized.  Otherwise, if the previewed row exists, the canvas shows
    exactly what the export renders for that row, after one clearing of
    the canvas; if it does not exist, the preview throws after the
    template was drawn when there are fields, and shows the bare template
    when there are none.  So it throws exactly when a canvas and the image
    are there, there are fields, and the preview index is out of range. *)
Theorem preview_outcomes (measureText : Measure) (template : Template)
    (data : list CertificateData) (previewIndex : nat)
    (editableFields : list TextField.t) (canvasPresent imageLoads : bool) :
  let result := Generator.renderPreview measureText template data previewIndex
                  editableFields canvasPresent imageLoads in
  let clear := ClearRect 0 0 (tpl_width template) (tpl_height template) in
  let background :=
    DrawImage (tpl_url template) 0 0 (tpl_width template) (tpl_height template) in
  let surface ops :=
    {| srf_width := tpl_width template; srf_height := tpl_height template;
       srf_ops := ops |} in
  (canvasPresent = false -> result = Generator.NoCanvas)
  /\ (canvasPresent = true -> imageLoads = false ->
      result = Generator.Blank (tpl_width template) (tpl_height template))
  /\ (canvasPresent = true -> imageLoads = true ->
      (forall row, data !! previewIndex = Some row ->
         exists blob,
           Generator.generateCertificateImage measureText template editableFields
             true row = Some blob
           /\ result = Generator.Painted (surface (clear :: srf_ops blob)))
      /\ (data !! previewIndex = None -> editableFields = [] ->
          result = Generator.Painted (surface [clear; background]))
      /\ (data !! previewIndex = None -> editableFields <> [] ->
          result = Generator.Threw (surface [clear; background])))
  /\ ((exists s, result = Generator.Threw s)
      <-> canvasPresent = true /\ imageLoads = true
          /\ (length data <= previewIndex)%nat /\ editableFields <> []).
Proof.
  intros result clear background surface. subst result.
  unfold Generator.renderPreview.
  split; [intros ->; reflexivity|].
  split; [intros -> ->; reflexivity|].
  split.
  - intros -> ->. simpl. split; [|split].
    + intros row Hrow. rewrite Hrow. eexists. split; [reflexivity|].
      simpl. unfold surface. do 3 f_equal.
    + intros Hnone ->. rewrite Hnone. reflexivity.
    + intros Hnone Hne. rewrite Hnone.
      destruct editableFields; [contradiction | reflexivity].
  - destruct canvasPresent; simpl; [|split; [intros [s H]; discriminate | intros [H _]; discriminate]].
    destruct imageLoads; simpl; [|split; [intros [s H]; discriminate | intros (_ & H & _); discriminate]].
    destruct (data !! previewIndex) as [row|] eqn:Erow.
    + split; [intros [s H]; discriminate|]. intros (_ & _ & Hle & _).
      apply lookup_lt_Some in Erow. lia.
    + apply lookup_ge_None in Erow.
      destruct editableFields as [|f fs].
      * split; [intros [s H]; discriminate | intros (_ & _ & _ & H); contradiction].
      * split; [|intros _; eexists; reflexivity].
        intros _. repeat split; [exact Erow | discriminate].
Qed.


(** ** Patching twice *)

Lemma spread_idem (field : TextField.t) (updates : Patch.t) :
  spread (spread field updates) updates = spread field updates.
Proof.
  unfold spread. simpl.
  f_equal; match goal with |- context [default _ ?o] => destruct o end; reflexivity.
Qed.

Lemma spread_setWidth (field : TextField.t) (updates : Patch.t) (w : Q) :
  spread (setWidth (spread field updates) w) updates
  = match Patch.width updates with
    | Some _ => spread field updates
    | None => setWidth (spread field updates) w
    end.
Proof.
  unfold spread, setWidth. simpl.
  destruct (Patch.width updates); simpl;
    f_equal; match goal with |- context [default _ ?o] => destruct o end; reflexivity.
Qed.

Lemma setWidth_view (field : TextField.t) (w : Q) :
  TextField.label (setWidth field w) = TextField.label field
  /\ TextField.fontSize (setWidth field w) = TextField.fontSize field
  /\ TextField.fontFamily (setWidth field w) = TextField.fontFamily field
  /\ TextField.autoWidth (setWidth field w) = TextField.autoWidth field.
Proof. repeat split; reflexivity. Qed.

Lemma designer_updateOne_idem (measureText : Measure)
    (field : TextField.t) (updates : Patch.t) :
  Designer.updateOne measureText (Designer.updateOne measureText field updates) updates
  = Designer.updateOne measureText field updates.
Proof.
  set (merged := spread field updates).
  set (touch := truthyKey truthyNumber (Patch.fontSize updates)
                || truthyKey truthyString (Patch.fontFamily updates)
                || truthyKey truthyString (Patch.label updates)).
  set (w := calculateTextWidth measureText (Designer.getDummyText (TextField.label merged))
              (TextField.fontSize merged) (TextField.fontFamily merged)).
  assert (Hcases :
    (Designer.updateOne measureText field updates = setWidth merged w
     /\ (Patch.autoWidth updates = Some true
         \/ (TextField.autoWidth merged = true /\ touch = true)))
    \/ (Designer.updateOne measureText field updates = merged
        /\ Patch.autoWidth updates <> Some true
        /\ TextField.autoWidth merged && touch = false)).
  { destruct (Patch.autoWidth updates) as [[|]|] eqn:Eauto.
    - left. split; [|left; reflexivity].
      apply designer_updateOne_recomputes. left. exact Eauto.
    - right. split; [|split; [discriminate|]].
      + apply designer_updateOne_untouched; [congruence|].
        subst merged. simpl. rewrite Eauto. reflexivity.
      + subst merged. simpl. rewrite Eauto. reflexivity.
    - destruct (TextField.autoWidth merged && touch) eqn:Etrig.
      + left. apply andb_true_iff in Etrig as [Hon Htouch].
        split; [|right; split; assumption].
        apply designer_updateOne_recomputes. right. split; assumption.
      + right. split; [|split; [discriminate | reflexivity]].
        apply designer_updateOne_untouched; [congruence | exact Etrig]. }
  destruct Hcases as [[Hone Htrig] | (Hone & Hoff & Hquiet)]; rewrite Hone.
  - assert (Hmerged2 : spread (setWidth merged w) updates
                       = match Patch.width updates with
                         | Some _ => merged
                         | None => setWidth merged w
                         end) by apply spread_setWidth.
    rewrite designer_updateOne_recomputes.
    + rewrite Hmerged2. destruct (Patch.width updates); reflexivity.
    + destruct Htrig as [Hon | [Hon Htouch]]; [left; exact Hon|].
      right. rewrite Hmerged2. split; [|exact Htouch].
      destruct (Patch.width updates); exact Hon.
  - rewrite designer_updateOne_untouched; [apply spread_idem | exact Hoff |].
    subst merged. rewrite spread_idem. exact Hquiet.
Qed.

Lemma generator_updateOne_idem (measureText : Measure)
    (data : list CertificateData) (previewIndex : nat)
    (field : TextField.t) (updates : Patch.t) :
  Generator.updateOne measureText data previewIndex
    (Generator.updateOne measureText data previewIndex field updates) updates
  = Generator.updateOne measureText data previewIndex field updates.
Proof.
  set (merged := spread field updates).
  set (touch := truthyKey truthyNumber (Patch.fontSize updates)
                || truthyKey truthyString (Patch.fontFamily updates)
                || truthyKey truthyString (Patch.label updates)).
  assert (Hplain : forall f,
            spread f updates = f ->
            (data !! previewIndex = None
             \/ (exists row, data !! previewIndex = Some row
                             /\ cell row (TextField.label f) = "")
             \/ (Patch.autoWidth updates <> Some true
                 /\ TextField.autoWidth f && touch = false)) ->
            Generator.updateOne measureText data previewIndex f updates = f).
  { intros f Hf [Hnone | [(row & Hrow & Hcell) | [Hoff Hquiet]]].
    - rewrite generator_updateOne_guarded; [exact Hf | left; exact Hnone].
    - rewrite generator_updateOne_guarded; [exact Hf|].
      right. exists row. rewrite Hf. split; assumption.
    - unfold Generator.updateOne. rewrite Hf.
      destruct (Patch.autoWidth updates) as [[|]|]; try congruence;
        destruct (data !! previewIndex); cbv zeta; fold touch; rewrite Hquiet;
        reflexivity. }
  destruct (data !! previewIndex) as [row|] eqn:Erow.
  2: { rewrite (generator_updateOne_guarded measureText data previewIndex field updates)
         by (left; exact Erow).
       apply Hplain; [apply spread_idem | left; reflexivity]. }
  destruct (String.eqb (cell row (TextField.label merged)) "") eqn:Ecell.
  { apply String.eqb_eq in Ecell.
    rewrite (generator_updateOne_guarded measureText data previewIndex field updates)
      by (right; exists row; split; [exact Erow | exact Ecell]).
    apply Hplain; [apply spread_idem|].
    right. left. exists row. split; [reflexivity | exact Ecell]. }
  apply String.eqb_neq in Ecell.
  set (w := calculateTextWidth measureText (cell row (TextField.label merged))
              (TextField.fontSize merged) (TextField.fontFamily merged)).
  destruct (bool_decide (Patch.autoWidth updates = Some true)
            || (TextField.autoWidth merged && touch)) eqn:Etrig.
  - assert (Htrig : Patch.autoWidth updates = Some true
                    \/ (TextField.autoWidth merged = true /\ touch = true)).
    { apply orb_true_iff in Etrig as [H|H].
      - left. apply bool_decide_eq_true in H. exact H.
      - right. apply andb_true_iff in H. exact H. }
    rewrite (generator_updateOne_recomputes measureText data previewIndex field updates row
               Htrig Erow Ecell).
    fold merged. fold w.
    assert (Hmerged2 : spread (setWidth merged w) updates
                       = match Patch.width updates with
                         | Some _ => merged
                         | None => setWidth merged w
                         end) by apply spread_setWidth.
    rewrite (generator_updateOne_recomputes measureText data previewIndex
               (setWidth merged w) updates row).
    + rewrite Hmerged2. destruct (Patch.width updates); reflexivity.
    + destruct Htrig as [Hon | [Hon Htouch]]; [left; exact Hon|].
      right. rewrite Hmerged2. split; [|exact Htouch].
      destruct (Patch.width updates); exact Hon.
    + exact Erow.
    + rewrite Hmerged2. destruct (Patch.width updates); exact Ecell.
  - apply orb_false_iff in Etrig as [Hoff Hquiet].
    apply bool_decide_eq_false in Hoff.
    assert (Hone : Generator.updateOne measureText data previewIndex field updates = merged).
    { unfold Generator.updateOne. fold merged.
      destruct (Patch.autoWidth updates) as [[|]|]; try congruence;
        cbv zeta; fold touch; rewrite Hquiet; reflexivity. }
    rewrite Hone. apply Hplain; [apply spread_idem|].
    right. right. split; assumption.
Qed.

(** X20: patching twice with the same patch is the same as patching once,
    in both components and for every patch, also one that changes the id
    or triggers the recomputation of the width. *)
Theorem updateField_idempotent (measureText : Measure)
    (data : list CertificateData) (previewIndex : nat)
    (id : string) (updates : Patch.t) (fields : list TextField.t) :
  Generator.updateField measureText data previewIndex id updates
    (Generator.updateField measureText data previewIndex id updates fields)
  = Generator.updateField measureText data previewIndex id updates fields
  /\ Designer.updateField measureText id updates
       (Designer.updateField measureText id updates fields)
     = Designer.updateField measureText id updates fields.
Proof.
  unfold Generator.updateField, Designer.updateField.
  rewrite !map_map. split; apply map_ext; intros f.
  - destruct (String.eqb (TextField.id f) id) eqn:E; [|rewrite E; reflexivity].
    destruct (String.eqb (TextField.id (Generator.updateOne measureText data
                                          previewIndex f updates)) id);
      [apply generator_updateOne_idem | reflexivity].
  - destruct (String.eqb (TextField.id f) id) eqn:E; [|rewrite E; reflexivity].
    destruct (String.eqb (TextField.id (Designer.updateOne measureText f updates)) id);
      [apply designer_updateOne_idem | reflexivity].
Qed.
